(** * BaiduCloudClient (sdk_utils/baidu_cloud.py): a shallow embedding

    The client is a thin synchronous wrapper around a REST API.  Every
    method reads or mutates the attributes of [self], reads the clock,
    talks to the vendor through [requests.Session] and touches the local
    file system.  The embedding threads one [World] through a state and
    exception monad [M]:

    - the attributes of the instance are the record [Client];
    - the vendor is an arbitrary function [server] from the requests sent
      so far and the current request to an [outcome]; every request that
      reaches the transport is appended to [log];
    - the one URL that is not a constant of the code, the download link,
      goes through the checks [requests] makes before it sends anything
      ([http_link] and [url_ok]);
    - [time.time()] reads an arbitrary sequence of clock values;
    - the local disk is a finite map from paths to byte contents, and
      the calls that create or write a file can fail ([fs_fault]);
    - [hashlib] is an interface ([Hashlib]) with its documented law, and
      one instance ([md5_hashlib]) that implements RFC 1321. *)

From Equations Require Import Equations.
From stdpp Require Import gmap strings list fin_maps.
From Stdlib Require Import ZArith Strings.Byte Strings.Ascii Lia.

Local Open Scope string_scope.
Local Open Scope list_scope.
Local Open Scope Z_scope.

(** ** Python values *)

(** What [response.json()] can hold, and what is put in request
    dictionaries.  JSON numbers are integers here. *)
#[local] Unset Elimination Schemes.
Inductive pyval : Type :=
| PNone
| PBool (b : bool)
| PInt (z : Z)
| PStr (s : string)
| PList (l : list pyval)
| PDict (d : list (string * pyval)).
#[local] Set Elimination Schemes.

(** [bool(v)]: the test behind [if v] and [not v]. *)
Definition truthy (v : pyval) : bool :=
  match v with
  | PNone => false
  | PBool b => b
  | PInt z => negb (z =? 0)
  | PStr s => negb (String.eqb s EmptyString)
  | PList l => match l with [] => false | _ => true end
  | PDict d => match d with [] => false | _ => true end
  end.

(** [v != 0]: [False == 0] and [True == 1] in Python. *)
Definition ne_zero (v : pyval) : bool :=
  match v with
  | PInt z => negb (z =? 0)
  | PBool b => b
  | _ => true
  end.

(** A parsed JSON object: a [dict] compared by content. *)
Abbreviation payload := (gmap string pyval).

(** [d.get(k, default)] *)
Definition dict_get (d : payload) (k : string) (default : pyval) : pyval :=
  match d !! k with
  | Some v => v
  | None => default
  end.

(** ['errno' in r and r['errno'] != 0] *)
Definition errno_nonzero (r : payload) : bool :=
  match r !! "errno" with
  | Some v => ne_zero v
  | None => false
  end.

(** A value of a [params] or [data] dictionary: a plain value, or the text
    [json.dumps(v)]. *)
Inductive field : Type :=
| Val (v : pyval)
| JsonDumps (v : pyval).

Inductive http_method : Type := GET | POST.

(** One call of [session.get] or [session.post].  [params] and [data]
    keep the insertion order of the dictionaries; [upload] is the content
    of the multipart field [file]. *)
Record request : Type := Request {
  meth : http_method;
  url : string;
  params : list (string * field);
  data : list (string * field);
  upload : option (list byte);
  stream : bool
}.

(** What the code looks at in a [requests.Response]: [json] is [None] when
    [response.json()] raises; [iter_content n] lists what the body iterator
    yields for chunk size [n], a [None] standing for an exception raised by
    the transport at that point of the stream. *)
Record response : Type := Response {
  status_code : Z;
  json : option payload;
  iter_content : Z -> list (option (list byte))
}.

Inductive outcome : Type :=
| Reply (r : response)
| Fault.

Inductive exn : Type :=
| ValueError (msg : string)
| FileNotFoundError (msg : string)
| TypeError
| JSONDecodeError
| RequestException
| OSError.

Inductive result (A : Type) : Type :=
| Ok (a : A)
| Raise (e : exn).
Arguments Ok {A} a.
Arguments Raise {A} e.

(** ** hashlib *)

(** [hashlib.md5()], [update] and [hexdigest].  The laws are the ones the
    library documents: repeated calls of [update] are equivalent to a single
    call with the concatenation of the arguments, and feeding no byte leaves
    the hash object as it was. *)
Class Hashlib : Type := {
  md5_state : Type;
  md5_new : md5_state;
  md5_update : md5_state -> list byte -> md5_state;
  md5_hexdigest : md5_state -> string;
  md5_update_app : forall s a b,
    md5_update (md5_update s a) b = md5_update s (a ++ b);
  md5_update_nil : forall s, md5_update s [] = s
}.

(** [hashlib.md5(data).hexdigest()] *)
Definition md5_hex `{Hashlib} (content : list byte) : string :=
  md5_hexdigest (md5_update md5_new content).

(** ** The instance and the world *)

Record Client : Type := MkClient {
  app_key : string;
  secret_key : string;
  access_token : pyval;
  refresh_token : pyval;
  auto_refresh : bool;
  token_expire_time : Z;
  _session : bool
}.

(** The calls on the local file system that [download_file] makes and that
    can raise [OSError]: creating the directory, opening the file for
    writing, a [write] at position [pos] of the file, and closing it. *)
Inductive fs_op : Type :=
| Makedirs (path : string)
| OpenWrite (path : string)
| Write (path : string) (pos : Z)
| Close (path : string).

(** [files] maps the path of each readable regular file to its content.
    [clock (ticks)] is the value of the next [int(time.time())].
    [fs_fault op] tells whether the operating system fails [op].
    [url_ok u] tells whether [requests] and [urllib3] can split the
    [http] or [https] URL [u] into a host, a port and a path they accept;
    when they cannot, [session.get(u)] raises [InvalidURL] before anything
    is sent. *)
Record World : Type := MkWorld {
  self : Client;
  clock : nat -> Z;
  ticks : nat;
  server : list request -> request -> outcome;
  log : list request;
  files : gmap string (list byte);
  fs_fault : fs_op -> bool;
  url_ok : string -> bool
}.

Definition with_self (c : Client) (w : World) : World :=
  MkWorld c (clock w) (ticks w) (server w) (log w) (files w) (fs_fault w)
    (url_ok w).

Definition with_ticks (n : nat) (w : World) : World :=
  MkWorld (self w) (clock w) n (server w) (log w) (files w) (fs_fault w)
    (url_ok w).

Definition with_log (l : list request) (w : World) : World :=
  MkWorld (self w) (clock w) (ticks w) (server w) l (files w) (fs_fault w)
    (url_ok w).

Definition with_files (f : gmap string (list byte)) (w : World) : World :=
  MkWorld (self w) (clock w) (ticks w) (server w) (log w) f (fs_fault w)
    (url_ok w).

Definition set_access_token (v : pyval) (c : Client) : Client :=
  MkClient (app_key c) (secret_key c) v (refresh_token c) (auto_refresh c)
    (token_expire_time c) (_session c).

Definition set_refresh_token (v : pyval) (c : Client) : Client :=
  MkClient (app_key c) (secret_key c) (access_token c) v (auto_refresh c)
    (token_expire_time c) (_session c).

Definition set_token_expire_time (t : Z) (c : Client) : Client :=
  MkClient (app_key c) (secret_key c) (access_token c) (refresh_token c)
    (auto_refresh c) t (_session c).

Definition set_session (b : bool) (c : Client) : Client :=
  MkClient (app_key c) (secret_key c) (access_token c) (refresh_token c)
    (auto_refresh c) (token_expire_time c) b.

(** ** The monad *)

Definition M (A : Type) : Type := World -> result A * World.

Definition ret {A} (a : A) : M A := fun w => (Ok a, w).

Definition bind {A B} (m : M A) (f : A -> M B) : M B := fun w =>
  match m w with
  | (Ok a, w') => f a w'
  | (Raise e, w') => (Raise e, w')
  end.

Notation "'do' x <- m ; k" := (bind m (fun x => k))
  (at level 10, x name, m at level 100, k at level 200,
   format "'[v' 'do'  x  <-  m ; '/' k ']'").
Notation "m >> k" := (bind m (fun _ => k))
  (at level 100, k at level 200, right associativity).

Definition raise {A} (e : exn) : M A := fun w => (Raise e, w).

(** [try: m except Exception: h] *)
Definition try_except {A} (m : M A) (h : exn -> M A) : M A := fun w =>
  match m w with
  | (Ok a, w') => (Ok a, w')
  | (Raise e, w') => h e w'
  end.

Definition gets {A} (f : World -> A) : M A := fun w => (Ok (f w), w).

Definition modify (f : World -> World) : M unit := fun w => (Ok tt, f w).

Definition modify_self (f : Client -> Client) : M unit :=
  modify (fun w => with_self (f (self w)) w).

(** [int(time.time())] *)
Definition time_time : M Z := fun w =>
  (Ok (clock w (ticks w)), with_ticks (S (ticks w)) w).

(** A request handed to the transport: it is recorded, then answered or
    failed by the vendor. *)
Definition send (req : request) : M response := fun w =>
  let w' := with_log (log w ++ [req]) w in
  match server w (log w) req with
  | Reply r => (Ok r, w')
  | Fault => (Raise RequestException, w')
  end.

(** [response.json()] *)
Definition response_json (r : response) : M payload :=
  match json r with
  | Some p => ret p
  | None => raise JSONDecodeError
  end.

Definition session_get (u : string) (ps : list (string * field)) : M response :=
  send (Request GET u ps [] None false).

Definition session_post (u : string) (ps ds : list (string * field))
    (f : option (list byte)) : M response :=
  send (Request POST u ps ds f false).

(** ** Token management *)

(** [_get_session]: creates the session on first use. *)
Definition _get_session : M unit :=
  do s <- gets (fun w => _session (self w));
  if s then ret tt else modify_self (set_session true).

Definition refresh_access_token : M payload :=
  do rt <- gets (fun w => refresh_token (self w));
  if negb (truthy rt) then
    raise (ValueError "未设置refresh_token，无法刷新token")
  else
    _get_session >>
    do c <- gets self;
    do response <- session_get "https://openapi.baidu.com/oauth/2.0/token"
      [("grant_type", Val (PStr "refresh_token"));
       ("refresh_token", Val rt);
       ("client_id", Val (PStr (app_key c)));
       ("client_secret", Val (PStr (secret_key c)))];
    do result <- response_json response;
    match result !! "access_token" with
    | Some at' =>
      modify_self (set_access_token at') >>
      match result !! "refresh_token" with
      | Some rt' => modify_self (set_refresh_token rt')
      | None => ret tt
      end >>
      match result !! "expires_in" with
      | Some e =>
        do now <- time_time;
        match e with
        | PInt z => modify_self (set_token_expire_time (now + z))
        | PBool b =>
          modify_self (set_token_expire_time (now + if b then 1 else 0))
        | _ => raise TypeError
        end
      | None => ret tt
      end
    | None => ret tt
    end >>
    ret result.

Definition _check_token : M unit :=
  do at' <- gets (fun w => access_token (self w));
  if negb (truthy at') then
    raise (ValueError "未设置access_token，请先获取授权")
  else
    do current_time <- time_time;
    do c <- gets self;
    if (0 <? token_expire_time c)
       && (token_expire_time c - 60 <=? current_time)
       && auto_refresh c
    then refresh_access_token >> ret tt
    else ret tt.

(** ** Pass-through operations *)

(** The query dictionary every gated call starts from. *)
Definition token_param (c : Client) : string * field :=
  ("access_token", Val (access_token c)).

Definition bool_flag (b : bool) : pyval := PInt (if b then 1 else 0).

Definition str_list (l : list string) : pyval := PList (PStr <$> l).

Definition get_user_info : M payload :=
  _check_token >>
  _get_session >>
  do c <- gets self;
  do response <- session_get
    "https://pan.baidu.com/rest/2.0/xpan/nas?method=uinfo" [token_param c];
  response_json response.

Definition get_quota : M payload :=
  _check_token >>
  _get_session >>
  do c <- gets self;
  do response <- session_get "https://pan.baidu.com/api/quota" [token_param c];
  response_json response.

Definition list_files (dir_path order : string) (desc : bool) (start limit : Z)
    : M payload :=
  _check_token >>
  _get_session >>
  do c <- gets self;
  do response <- session_get
    "https://pan.baidu.com/rest/2.0/xpan/file?method=list"
    [token_param c;
     ("dir", Val (PStr dir_path));
     ("order", Val (PStr order));
     ("desc", Val (bool_flag desc));
     ("start", Val (PInt start));
     ("limit", Val (PInt limit))];
  response_json response.

Definition search_files (keyword dir_path : string) (recursive : bool)
    : M payload :=
  _check_token >>
  _get_session >>
  do c <- gets self;
  do response <- session_get
    "https://pan.baidu.com/rest/2.0/xpan/file?method=search"
    [token_param c;
     ("key", Val (PStr keyword));
     ("dir", Val (PStr dir_path));
     ("recursion", Val (bool_flag recursive))];
  response_json response.

Definition get_file_info (file_path : string) : M payload :=
  _check_token >>
  _get_session >>
  do c <- gets self;
  do response <- session_get
    "https://pan.baidu.com/rest/2.0/xpan/multimedia?method=filemetas"
    [token_param c; ("path", Val (PStr file_path))];
  response_json response.

Definition create_directory (dir_path : string) : M payload :=
  _check_token >>
  _get_session >>
  do c <- gets self;
  do response <- session_post
    "https://pan.baidu.com/rest/2.0/xpan/file?method=create"
    [token_param c] [("path", Val (PStr dir_path))] None;
  response_json response.

Definition delete_files (file_paths : list string) : M payload :=
  _check_token >>
  _get_session >>
  do c <- gets self;
  do response <- session_post
    "https://pan.baidu.com/rest/2.0/xpan/file?method=filemanager&opera=delete"
    [token_param c] [("filelist", JsonDumps (str_list file_paths))] None;
  response_json response.

Definition rename_file (file_path new_name : string) : M payload :=
  _check_token >>
  _get_session >>
  do c <- gets self;
  do response <- session_post
    "https://pan.baidu.com/rest/2.0/xpan/file?method=filemanager&opera=rename"
    [token_param c]
    [("filelist",
      JsonDumps (PList [PDict [("path", PStr file_path);
                               ("newname", PStr new_name)]]))] None;
  response_json response.

(** [file_list] is the caller's list of dictionaries, as a Python value. *)
Definition move_files (file_list : pyval) : M payload :=
  _check_token >>
  _get_session >>
  do c <- gets self;
  do response <- session_post
    "https://pan.baidu.com/rest/2.0/xpan/file?method=filemanager&opera=move"
    [token_param c] [("filelist", JsonDumps file_list)] None;
  response_json response.

Definition copy_files (file_list : pyval) : M payload :=
  _check_token >>
  _get_session >>
  do c <- gets self;
  do response <- session_post
    "https://pan.baidu.com/rest/2.0/xpan/file?method=filemanager&opera=copy"
    [token_param c] [("filelist", JsonDumps file_list)] None;
  response_json response.

Definition create_share (file_paths : list string) (period : Z)
    (password : pyval) (description : string) : M payload :=
  _check_token >>
  _get_session >>
  do c <- gets self;
  let data :=
    [("path_list", JsonDumps (str_list file_paths));
     ("period", Val (PInt period));
     ("channel_list", JsonDumps (PList [PInt 0]));
     ("schannel", Val (PInt 4));
     ("description", Val (PStr description))] in
  let data :=
    if truthy password then data ++ [("pwd", Val password)] else data in
  do response <- session_post
    "https://pan.baidu.com/rest/2.0/xpan/share?method=set"
    [token_param c] data None;
  response_json response.

Definition list_shares (start limit : Z) : M payload :=
  _check_token >>
  _get_session >>
  do c <- gets self;
  do response <- session_get
    "https://pan.baidu.com/rest/2.0/xpan/share?method=list"
    [token_param c; ("start", Val (PInt start)); ("limit", Val (PInt limit))];
  response_json response.

Definition cancel_share (share_ids : list string) : M payload :=
  _check_token >>
  _get_session >>
  do c <- gets self;
  do response <- session_post
    "https://pan.baidu.com/rest/2.0/xpan/share?method=cancel"
    [token_param c] [("shareid_list", JsonDumps (str_list share_ids))] None;
  response_json response.

(** ** Local files *)

(** [os.path.isfile(path)] *)
Definition isfile (path : string) : M bool :=
  gets (fun w => bool_decide (is_Some (files w !! path))).

Definition no_such_file (path : string) : exn :=
  FileNotFoundError ("文件不存在: " +:+ path).

(** [os.path.getsize(path)] *)
Definition getsize (path : string) : M Z := fun w =>
  match files w !! path with
  | Some content => (Ok (Z.of_nat (length content)), w)
  | None => (Raise (no_such_file path), w)
  end.

(** [open(path, 'rb')]: the file object is the list of the bytes that are
    still to be read. *)
Definition open_rb (path : string) : M (list byte) := fun w =>
  match files w !! path with
  | Some content => (Ok content, w)
  | None => (Raise (no_such_file path), w)
  end.

Fixpoint read_upto (n : Z) (rest : list byte) : list byte * list byte :=
  match rest with
  | [] => ([], [])
  | b :: rest' =>
    if n <=? 0 then ([], rest)
    else let (chunk, rest'') := read_upto (n - 1) rest' in (b :: chunk, rest'')
  end.

(** [f.read(n)]: the bytes read and the bytes left; a negative [n] reads to
    the end of the file. *)
Definition f_read (n : Z) (rest : list byte) : list byte * list byte :=
  if n <? 0 then (rest, []) else read_upto n rest.

(** [os.makedirs(os.path.dirname(os.path.abspath(path)), exist_ok=True)];
    directories are not part of the model, only whether the call raises. *)
Definition makedirs_parent (path : string) : M unit := fun w =>
  if fs_fault w (Makedirs path) then (Raise OSError, w) else (Ok tt, w).

(** [open(path, 'wb')]: creates or truncates the file. *)
Definition open_wb (path : string) : M unit := fun w =>
  if fs_fault w (OpenWrite path) then (Raise OSError, w)
  else (Ok tt, with_files (<[path := []]> (files w)) w).

(** [f.write(chunk)] on the file opened at [path], at the end of what was
    written so far.  A write the operating system fails (a full disk, say)
    raises [OSError]; the model then keeps what was written before, the
    theorems only rely on the file holding some prefix of the data. *)
Definition f_write (path : string) (chunk : list byte) : M unit := fun w =>
  let pos := Z.of_nat (length (default [] (files w !! path))) in
  if fs_fault w (Write path pos) then (Raise OSError, w)
  else (Ok tt, with_files (alter (fun old => old ++ chunk) path (files w)) w).

(** [f.close()], which flushes what is still buffered and raises [OSError]
    when that fails; as for a failing write, the theorems then rely only on
    the file holding some prefix of the data. *)
Definition f_close (path : string) : M unit := fun w =>
  if fs_fault w (Close path) then (Raise OSError, w) else (Ok tt, w).

(** [with ... as f: m]: the file is closed when [m] ends and when [m]
    raises; an exception of the closing replaces the one of [m]. *)
Definition closing {A} (path : string) (m : M A) : M A := fun w =>
  match m w with
  | (Ok a, w') =>
    match f_close path w' with
    | (Ok _, w'') => (Ok a, w'')
    | (Raise e, w'') => (Raise e, w'')
    end
  | (Raise e, w') =>
    match f_close path w' with
    | (Ok _, w'') => (Raise e, w'')
    | (Raise e', w'') => (Raise e', w'')
    end
  end.

(** ** Download *)

Definition get_download_link (file_path : string) : M pyval :=
  _check_token >>
  _get_session >>
  do c <- gets self;
  do response <- session_get
    "https://pan.baidu.com/rest/2.0/xpan/file?method=download"
    [token_param c; ("path", Val (PStr file_path))];
  if status_code response =? 200 then
    do j <- response_json response;
    ret (dict_get j "dlink" (PStr EmptyString))
  else ret (PStr EmptyString).

(** The loop [for chunk in response.iter_content(...): if chunk: f.write(chunk)]
    over what the iterator yields. *)
Fixpoint write_chunks (local_path : string) (body : list (option (list byte)))
    : M unit :=
  match body with
  | [] => ret tt
  | Some chunk :: body' =>
    (match chunk with
     | [] => ret tt
     | _ => f_write local_path chunk
     end) >>
    write_chunks local_path body'
  | None :: _ => raise RequestException
  end.

(** White space as [str.lstrip()] sees it in front of a URL: the ASCII
    characters for which [str.isspace()] holds.  Strings are sequences of
    bytes here; a byte from 128 on can be part of a white-space character
    outside ASCII and is skipped as well, [url_ok] deciding for such a
    link. *)
Definition is_space (a : ascii) : bool :=
  let c := Z.of_N (N_of_ascii a) in
  ((9 <=? c) && (c <=? 13)) || ((28 <=? c) && (c <=? 32)) || (128 <=? c).

Fixpoint lstrip (s : string) : string :=
  match s with
  | String a s' => if is_space a then lstrip s' else s
  | EmptyString => EmptyString
  end.

Definition to_lower (a : ascii) : ascii :=
  let c := N_of_ascii a in
  if ((65 <=? c) && (c <=? 90))%N then ascii_of_N (c + 32) else a.

Fixpoint lower (s : string) : string :=
  match s with
  | String a s' => String (to_lower a) (lower s')
  | EmptyString => EmptyString
  end.

(** What [requests] asks of a URL before it looks at anything else: once
    leading white space is stripped, it starts with [http://] or
    [https://], in any case of the letters.  A URL without scheme is
    refused with [MissingSchema]; one with another scheme finds no
    transport adapter in the session and is refused with [InvalidSchema]. *)
Definition http_link (u : string) : bool :=
  String.prefix "http://" (lower (lstrip u))
  || String.prefix "https://" (lower (lstrip u)).

(** [session.get(download_link, stream=True)].  [requests] prepares the URL
    before it sends anything: a link that is not a string, a string that is
    not an [http] or [https] URL and a URL it cannot split raise
    [MissingSchema], [InvalidSchema] or [InvalidURL], all of them
    [RequestException]s, and nothing reaches the transport. *)
Definition get_stream (download_link : pyval) : M response :=
  match download_link with
  | PStr u =>
    do ok <- gets (fun w => http_link u && url_ok w u);
    if ok then send (Request GET u [] [] None true)
    else raise RequestException
  | _ => raise RequestException
  end.

(** The [print] of the handler is not modelled. *)
Definition download_file (file_path local_path : string) (chunk_size : Z)
    : M bool :=
  do download_link <- get_download_link file_path;
  if negb (truthy download_link) then ret false
  else
    _get_session >>
    try_except
      (do response <- get_stream download_link;
       if negb (status_code response =? 200) then ret false
       else
         makedirs_parent local_path >>
         open_wb local_path >>
         closing local_path
           (write_chunks local_path (iter_content response chunk_size)) >>
         ret true)
      (fun e => ret false).

(** ** Upload *)

Definition upload_url : string :=
  "https://pan.baidu.com/rest/2.0/xpan/file?method=upload".

Definition precreate_url : string :=
  "https://pan.baidu.com/rest/2.0/xpan/file?method=precreate".

Definition create_url : string :=
  "https://pan.baidu.com/rest/2.0/xpan/file?method=create".

Definition _upload_small_file (local_path remote_path ondup : string)
    : M payload :=
  _get_session >>
  do c <- gets self;
  do f <- open_rb local_path;
  do response <- session_post upload_url
    [token_param c;
     ("path", Val (PStr remote_path));
     ("ondup", Val (PStr ondup))]
    [] (Some f);
  response_json response.

(** The [md5] argument is accepted and not sent. *)
Definition _precreate_file (remote_path : string) (file_size : Z)
    (md5 ondup : string) : M payload :=
  _get_session >>
  do c <- gets self;
  do response <- session_post precreate_url
    [token_param c]
    [("path", Val (PStr remote_path));
     ("size", Val (PInt file_size));
     ("isdir", Val (PInt 0));
     ("autoinit", Val (PInt 1));
     ("rtype", Val (PInt 3));
     ("block_list", JsonDumps (PList []));
     ("ondup", Val (PStr ondup))]
    None;
  response_json response.

Definition _upload_chunk (chunk : list byte) (remote_path : string)
    (upload_id : pyval) (block_index : Z) : M payload :=
  _get_session >>
  do c <- gets self;
  do response <- session_post upload_url
    [token_param c;
     ("path", Val (PStr remote_path));
     ("uploadid", Val upload_id);
     ("partseq", Val (PInt block_index))]
    [] (Some chunk);
  response_json response.

Definition _create_file (remote_path : string) (file_size : Z)
    (upload_id : pyval) (block_list : list string) (ondup : string)
    : M payload :=
  _get_session >>
  do c <- gets self;
  do response <- session_post create_url
    [token_param c]
    [("path", Val (PStr remote_path));
     ("size", Val (PInt file_size));
     ("isdir", Val (PInt 0));
     ("uploadid", Val upload_id);
     ("block_list", JsonDumps (str_list block_list));
     ("ondup", Val (PStr ondup))]
    None;
  response_json response.

Definition inspect {A} (a : A) : {b : A | a = b} := exist _ a eq_refl.

(** Termination of the two read loops: a read that returns bytes leaves
    strictly fewer bytes in the file. *)
Lemma read_upto_shrinks n rest b chunk rest' :
  read_upto n rest = (b :: chunk, rest') -> (length rest' < length rest)%nat.
Proof.
  revert n b chunk rest'.
  induction rest as [|x rest IH]; intros n b chunk rest'; simpl.
  - discriminate.
  - destruct (n <=? 0); [discriminate|].
    destruct (read_upto (n - 1) rest) as [c r] eqn:E.
    intros [= -> <- <-].
    destruct c as [|y c].
    + destruct rest as [|z rest]; simpl in E.
      * injection E as <-. simpl. lia.
      * destruct (n - 1 <=? 0).
        -- injection E as <-. simpl. lia.
        -- destruct (read_upto (n - 1 - 1) rest). discriminate.
    + apply IH in E. simpl. lia.
Qed.

Lemma f_read_shrinks n rest b chunk rest' :
  f_read n rest = (b :: chunk, rest') -> (length rest' < length rest)%nat.
Proof.
  unfold f_read. destruct (n <? 0).
  - intros [= -> <-]. simpl. lia.
  - apply read_upto_shrinks.
Qed.

Section WithHashlib.
Context `{Hashlib}.

(** The loop [for chunk in iter(lambda: f.read(4096), b""): md5.update(chunk)]. *)
Equations md5_of_stream (md5 : md5_state) (rest : list byte) : md5_state
  by wf (length rest) lt :=
  md5_of_stream md5 rest with inspect (f_read 4096 rest) := {
    | exist _ ([], _) _ := md5;
    | exist _ (b :: chunk, rest') e :=
        md5_of_stream (md5_update md5 (b :: chunk)) rest' }.
Next Obligation. intros; eapply f_read_shrinks; eassumption. Qed.

Definition _calculate_file_md5 (file_path : string) : M string :=
  let md5 := md5_new in
  do f <- open_rb file_path;
  ret (md5_hexdigest (md5_of_stream md5 f)).

(** The [while True] loop of [_upload_large_file]: [inl] is the [return]
    inside the loop, [inr] the [break] with the block list built so far. *)
Equations upload_loop (chunk_size : Z) (remote_path : string)
    (upload_id : pyval) (rest : list byte) (block_index : Z)
    (block_list : list string) : M (payload + list string)
  by wf (length rest) lt :=
  upload_loop chunk_size remote_path upload_id rest block_index block_list
    with inspect (f_read chunk_size rest) := {
    | exist _ ([], _) _ := ret (inr block_list);
    | exist _ (b :: chunk, rest') e :=
        do result <- _upload_chunk (b :: chunk) remote_path upload_id block_index;
        if errno_nonzero result then ret (inl result)
        else upload_loop chunk_size remote_path upload_id rest'
               (block_index + 1) (block_list ++ [md5_hex (b :: chunk)]) }.
Next Obligation. intros; eapply f_read_shrinks; eassumption. Qed.

Definition missing_upload_id : payload :=
  {[ "errno" := PInt (-1); "errmsg" := PStr "获取上传ID失败" ]}.

Definition _upload_large_file (local_path remote_path ondup : string)
    : M payload :=
  do file_size <- getsize local_path;
  do md5 <- _calculate_file_md5 local_path;
  do precreate_result <- _precreate_file remote_path file_size md5 ondup;
  if errno_nonzero precreate_result then ret precreate_result
  else
    let upload_id := dict_get precreate_result "uploadid" (PStr EmptyString) in
    if negb (truthy upload_id) then ret missing_upload_id
    else
      let block_list := [] in
      let chunk_size := 4 * 1024 * 1024 in
      do f <- open_rb local_path;
      do r <- upload_loop chunk_size remote_path upload_id f 0 block_list;
      match r with
      | inl result => ret result
      | inr block_list =>
        _create_file remote_path file_size upload_id block_list ondup
      end.

Definition upload_file (local_path remote_path ondup : string) : M payload :=
  _check_token >>
  do exists_ <- isfile local_path;
  if negb exists_ then raise (no_such_file local_path)
  else
    do file_size <- getsize local_path;
    if 4 * 1024 * 1024 <? file_size
    then _upload_large_file local_path remote_path ondup
    else _upload_small_file local_path remote_path ondup.

End WithHashlib.

(** ** MD5 (RFC 1321), the instance of [Hashlib] used on concrete files *)

Module MD5.

Definition add32 (x y : Z) : Z := (x + y) mod 2 ^ 32.

Definition not32 (x : Z) : Z := Z.lxor x 0xffffffff.

Definition rotl32 (x c : Z) : Z :=
  Z.lor (Z.shiftl x c mod 2 ^ 32) (Z.shiftr x (32 - c)).

(** [floor(2^32 * abs(sin(i + 1)))] for [i] from 0 to 63. *)
Definition K : list Z :=
  [0xd76aa478; 0xe8c7b756; 0x242070db; 0xc1bdceee;
   0xf57c0faf; 0x4787c62a; 0xa8304613; 0xfd469501;
   0x698098d8; 0x8b44f7af; 0xffff5bb1; 0x895cd7be;
   0x6b901122; 0xfd987193; 0xa679438e; 0x49b40821;
   0xf61e2562; 0xc040b340; 0x265e5a51; 0xe9b6c7aa;
   0xd62f105d; 0x02441453; 0xd8a1e681; 0xe7d3fbc8;
   0x21e1cde6; 0xc33707d6; 0xf4d50d87; 0x455a14ed;
   0xa9e3e905; 0xfcefa3f8; 0x676f02d9; 0x8d2a4c8a;
   0xfffa3942; 0x8771f681; 0x6d9d6122; 0xfde5380c;
   0xa4beea44; 0x4bdecfa9; 0xf6bb4b60; 0xbebfbc70;
   0x289b7ec6; 0xeaa127fa; 0xd4ef3085; 0x04881d05;
   0xd9d4d039; 0xe6db99e5; 0x1fa27cf8; 0xc4ac5665;
   0xf4292244; 0x432aff97; 0xab9423a7; 0xfc93a039;
   0x655b59c3; 0x8f0ccc92; 0xffeff47d; 0x85845dd1;
   0x6fa87e4f; 0xfe2ce6e0; 0xa3014314; 0x4e0811a1;
   0xf7537e82; 0xbd3af235; 0x2ad7d2bb; 0xeb86d391].

(** The per-round left rotations. *)
Definition shifts : list Z :=
  [7; 12; 17; 22; 7; 12; 17; 22; 7; 12; 17; 22; 7; 12; 17; 22;
   5; 9; 14; 20; 5; 9; 14; 20; 5; 9; 14; 20; 5; 9; 14; 20;
   4; 11; 16; 23; 4; 11; 16; 23; 4; 11; 16; 23; 4; 11; 16; 23;
   6; 10; 15; 21; 6; 10; 15; 21; 6; 10; 15; 21; 6; 10; 15; 21].

Definition byte_val (b : byte) : Z := Z.of_N (Byte.to_N b).

(** Little-endian 32-bit words of a byte sequence. *)
Fixpoint words (bs : list byte) : list Z :=
  match bs with
  | b0 :: b1 :: b2 :: b3 :: bs' =>
    (byte_val b0 + 256 * byte_val b1 + 65536 * byte_val b2
     + 16777216 * byte_val b3) :: words bs'
  | _ => []
  end.

Definition byte_of (z : Z) : byte :=
  match Byte.of_N (Z.to_N (z mod 256)) with
  | Some b => b
  | None => x00
  end.

(** The [n] low bytes of [z], least significant first. *)
Fixpoint le_bytes (n : nat) (z : Z) : list byte :=
  match n with
  | O => []
  | S n' => byte_of z :: le_bytes n' (z / 256)
  end.

(** Padding: a one bit, zeros up to 56 modulo 64, the bit length on 64 bits. *)
Definition pad (msg : list byte) : list byte :=
  let len := Z.of_nat (length msg) in
  msg ++ [x80] ++ repeat x00 (Z.to_nat ((55 - len) mod 64))
      ++ le_bytes 8 ((8 * len) mod 2 ^ 64).

Definition round (block : list Z) (st : Z * Z * Z * Z) (i : nat)
    : Z * Z * Z * Z :=
  let '(a, b, c, d) := st in
  let '(f, g) :=
    if (i <? 16)%nat then
      (Z.lor (Z.land b c) (Z.land (not32 b) d), i)
    else if (i <? 32)%nat then
      (Z.lor (Z.land d b) (Z.land (not32 d) c), ((5 * i + 1) mod 16)%nat)
    else if (i <? 48)%nat then
      (Z.lxor b (Z.lxor c d), ((3 * i + 5) mod 16)%nat)
    else
      (Z.lxor c (Z.lor b (not32 d)), ((7 * i) mod 16)%nat) in
  let f := add32 (add32 (add32 f a) (nth i K 0)) (nth g block 0) in
  (d, add32 b (rotl32 f (nth i shifts 0)), b, c).

Definition compress (st : Z * Z * Z * Z) (block : list Z) : Z * Z * Z * Z :=
  let '(a0, b0, c0, d0) := st in
  let '(a, b, c, d) := fold_left (round block) (seq 0 64) st in
  (add32 a0 a, add32 b0 b, add32 c0 c, add32 d0 d).

Fixpoint blocks (n : nat) (ws : list Z) (st : Z * Z * Z * Z) : Z * Z * Z * Z :=
  match n with
  | O => st
  | S n' => blocks n' (skipn 16 ws) (compress st (firstn 16 ws))
  end.

Definition digest (msg : list byte) : list byte :=
  let ws := words (pad msg) in
  let '(a, b, c, d) :=
    blocks (length ws / 16) ws (0x67452301, 0xefcdab89, 0x98badcfe, 0x10325476) in
  le_bytes 4 a ++ le_bytes 4 b ++ le_bytes 4 c ++ le_bytes 4 d.

Definition hex_digit (n : Z) : Ascii.ascii :=
  nth (Z.to_nat n)
    (String.list_ascii_of_string "0123456789abcdef") "0"%char.

Fixpoint hex (bs : list byte) : string :=
  match bs with
  | [] => EmptyString
  | b :: bs' =>
    String (hex_digit (byte_val b / 16))
      (String (hex_digit (byte_val b mod 16)) (hex bs'))
  end.

Definition hexdigest (msg : list byte) : string := hex (digest msg).

End MD5.

(** The state of the hash object is the sequence of bytes it was fed. *)
#[global, refine] Instance md5_hashlib : Hashlib := {|
  md5_state := list byte;
  md5_new := [];
  md5_update := fun s chunk => s ++ chunk;
  md5_hexdigest := MD5.hexdigest
|}.
Proof.
  - intros s a b. symmetry. apply app_assoc.
  - intros s. apply app_nil_r.
Defined.

(** ** The authorization link *)

Definition default_scope : string := "basic,netdisk".

(** ["&".join(parts)] *)
Fixpoint join_amp (parts : list string) : string :=
  match parts with
  | [] => EmptyString
  | [p] => p
  | p :: parts' => p +:+ "&" +:+ join_amp parts'
  end.

(** [scope] is [None] when the caller leaves the argument out. *)
Definition get_auth_url (c : Client) (redirect_uri : string)
    (scope : option string) : string :=
  let scope := default default_scope scope in
  let params :=
    [("client_id", app_key c);
     ("response_type", "code");
     ("redirect_uri", redirect_uri);
     ("scope", scope)] in
  let query_string :=
    join_amp ((fun kv : string * string => fst kv +:+ "=" +:+ snd kv) <$> params) in
  "https://openapi.baidu.com/oauth/2.0/authorize?" +:+ query_string.

(** ** The gated operations as one family *)

Inductive call : Type :=
| GetUserInfo
| GetQuota
| ListFiles (dir_path order : string) (desc : bool) (start limit : Z)
| SearchFiles (keyword dir_path : string) (recursive : bool)
| GetFileInfo (file_path : string)
| CreateDirectory (dir_path : string)
| DeleteFiles (file_paths : list string)
| RenameFile (file_path new_name : string)
| MoveFiles (file_list : pyval)
| CopyFiles (file_list : pyval)
| GetDownloadLink (file_path : string)
| DownloadFile (file_path local_path : string) (chunk_size : Z)
| UploadFile (local_path remote_path ondup : string)
| CreateShare (file_paths : list string) (period : Z) (password : pyval)
    (description : string)
| ListShares (start limit : Z)
| CancelShare (share_ids : list string).

Inductive retval : Type :=
| RDict (d : payload)
| RVal (v : pyval)
| RBool (b : bool).

Definition returning {A} (f : A -> retval) (m : M A) : M retval :=
  do a <- m; ret (f a).

Definition exec `{Hashlib} (c : call) : M retval :=
  match c with
  | GetUserInfo => returning RDict get_user_info
  | GetQuota => returning RDict get_quota
  | ListFiles d o ds s l => returning RDict (list_files d o ds s l)
  | SearchFiles k d r => returning RDict (search_files k d r)
  | GetFileInfo p => returning RDict (get_file_info p)
  | CreateDirectory p => returning RDict (create_directory p)
  | DeleteFiles ps => returning RDict (delete_files ps)
  | RenameFile p n => returning RDict (rename_file p n)
  | MoveFiles l => returning RDict (move_files l)
  | CopyFiles l => returning RDict (copy_files l)
  | GetDownloadLink p => returning RVal (get_download_link p)
  | DownloadFile p l n => returning RBool (download_file p l n)
  | UploadFile l r o => returning RDict (upload_file l r o)
  | CreateShare ps n pw d => returning RDict (create_share ps n pw d)
  | ListShares s l => returning RDict (list_shares s l)
  | CancelShare ids => returning RDict (cancel_share ids)
  end.

(** ** The requests the theorems speak about *)

(** These restate, outside the monad, the dictionaries the methods build;
    the theorems below tie them to what the methods put in [log]. *)

Definition refresh_request (c : Client) : request :=
  Request GET "https://openapi.baidu.com/oauth/2.0/token"
    [("grant_type", Val (PStr "refresh_token"));
     ("refresh_token", Val (refresh_token c));
     ("client_id", Val (PStr (app_key c)));
     ("client_secret", Val (PStr (secret_key c)))]
    [] None false.

Definition small_upload_request (token : pyval) (remote_path ondup : string)
    (content : list byte) : request :=
  Request POST upload_url
    [("access_token", Val token);
     ("path", Val (PStr remote_path));
     ("ondup", Val (PStr ondup))]
    [] (Some content) false.

Definition precreate_request (token : pyval) (remote_path : string)
    (file_size : Z) (ondup : string) : request :=
  Request POST precreate_url
    [("access_token", Val token)]
    [("path", Val (PStr remote_path));
     ("size", Val (PInt file_size));
     ("isdir", Val (PInt 0));
     ("autoinit", Val (PInt 1));
     ("rtype", Val (PInt 3));
     ("block_list", JsonDumps (PList []));
     ("ondup", Val (PStr ondup))]
    None false.

Definition chunk_request (token : pyval) (remote_path : string)
    (upload_id : pyval) (block_index : Z) (chunk : list byte) : request :=
  Request POST upload_url
    [("access_token", Val token);
     ("path", Val (PStr remote_path));
     ("uploadid", Val upload_id);
     ("partseq", Val (PInt block_index))]
    [] (Some chunk) false.

Definition finalize_request (token : pyval) (remote_path : string)
    (file_size : Z) (upload_id : pyval) (block_list : list string)
    (ondup : string) : request :=
  Request POST create_url
    [("access_token", Val token)]
    [("path", Val (PStr remote_path));
     ("size", Val (PInt file_size));
     ("isdir", Val (PInt 0));
     ("uploadid", Val upload_id);
     ("block_list", JsonDumps (str_list block_list));
     ("ondup", Val (PStr ondup))]
    None false.

Definition link_request (token : pyval) (file_path : string) : request :=
  Request GET "https://pan.baidu.com/rest/2.0/xpan/file?method=download"
    [("access_token", Val token); ("path", Val (PStr file_path))]
    [] None false.

Definition stream_request (u : string) : request :=
  Request GET u [] [] None true.

(** First value bound to [k] in a request dictionary. *)
Fixpoint assoc (k : string) (d : list (string * field)) : option field :=
  match d with
  | [] => None
  | (k', v) :: d' => if String.eqb k k' then Some v else assoc k d'
  end.

(** The sequence number a chunk upload carries. *)
Definition partseq (req : request) : option Z :=
  match assoc "partseq" (params req) with
  | Some (Val (PInt i)) => Some i
  | _ => None
  end.

(** The three calls of the chunked protocol, told apart on the wire: the
    chunk upload shares its URL with the direct upload and differs by
    [partseq]; the finalize call shares its URL with [create_directory] and
    differs by [uploadid]. *)
Definition is_precreate (req : request) : bool :=
  String.eqb (url req) precreate_url.

Definition is_chunk (req : request) : bool :=
  String.eqb (url req) upload_url && bool_decide (is_Some (partseq req)).

Definition is_finalize (req : request) : bool :=
  String.eqb (url req) create_url
  && bool_decide (is_Some (assoc "uploadid" (data req))).

Definition is_chunked_protocol (req : request) : bool :=
  is_precreate req || is_chunk req || is_finalize req.

(** What the download loop leaves in the local file: the chunks yielded
    before the first transport failure. *)
Fixpoint written (body : list (option (list byte))) : list byte :=
  match body with
  | Some chunk :: body' => chunk ++ written body'
  | _ => []
  end.

(** Whether the body iterator ends without raising. *)
Fixpoint complete (body : list (option (list byte))) : bool :=
  match body with
  | [] => true
  | Some _ :: body' => complete body'
  | None :: _ => false
  end.

(** ** Concrete worlds *)

Definition reply_with (p : payload) : outcome :=
  Reply (Response 200 (Some p) (fun _ => [])).

Definition demo_client : Client :=
  MkClient "test_app_key" "test_secret_key" (PStr "tok") (PStr "ref") true 0
    false.

(** A vendor that answers every request with [p]. *)
Definition demo_world (c : Client) (p : payload)
    (fs : gmap string (list byte)) : World :=
  MkWorld c (fun _ => 2000) 0 (fun _ _ => reply_with p) [] fs (fun _ => false)
    (fun _ => true).

Definition hundred_bytes : list byte := repeat x61 100.

(** A vendor that accepts the precreate call with upload id [u-1], refuses
    every chunk with [errno] 31299 and accepts everything else. *)
Definition chunk_refused : payload := {[ "errno" := PInt 31299 ]}.

Definition session_opened : payload :=
  {[ "errno" := PInt 0; "uploadid" := PStr "u-1" ]}.

Definition refusing_server (history : list request) (req : request) : outcome :=
  if String.eqb (url req) upload_url then reply_with chunk_refused
  else reply_with session_opened.

Definition refusing_world (fs : gmap string (list byte)) : World :=
  MkWorld demo_client (fun _ => 2000) 0 refusing_server [] fs (fun _ => false)
    (fun _ => true).

(** A file of 4 MiB and one byte. *)
Definition big_file : list byte := repeat x61 (Z.to_nat (4 * 1024 * 1024 + 1)).

(** A file of 8 MiB and one byte: three chunks. *)
Definition three_chunk_file : list byte :=
  repeat x61 (Z.to_nat (2 * (4 * 1024 * 1024) + 1)).

(** A vendor that opens the session [u-1], refuses the chunk with index 1
    with [errno] 31299 and accepts everything else. *)
Definition second_refused_server (history : list request) (req : request)
    : outcome :=
  match partseq req with
  | Some 1 => reply_with chunk_refused
  | _ => reply_with session_opened
  end.

Definition second_refused_world (fs : gmap string (list byte)) : World :=
  MkWorld demo_client (fun _ => 2000) 0 second_refused_server [] fs
    (fun _ => false) (fun _ => true).

(** A client whose token expired at time 1000, on a clock that reads 2000. *)
Definition expiring_client : Client := set_token_expire_time 1000 demo_client.

(** A vendor that resolves every path to the link [http://d/x] and whose
    download stream breaks after the two bytes [ab]. *)
Definition broken_stream_server (history : list request) (req : request)
    : outcome :=
  if stream req then
    Reply (Response 200 None (fun _ => [Some [x61; x62]; None]))
  else reply_with {[ "dlink" := PStr "http://d/x" ]}.

Definition broken_stream_world : World :=
  MkWorld demo_client (fun _ => 2000) 0 broken_stream_server [] ∅
    (fun _ => false) (fun _ => true).

(** A vendor that resolves every path to the link [http://d/x] and streams
    the bytes [ab], then [c], on a disk that is full after two bytes. *)
Definition two_chunk_server (history : list request) (req : request)
    : outcome :=
  if stream req then
    Reply (Response 200 None (fun _ => [Some [x61; x62]; Some [x63]]))
  else reply_with {[ "dlink" := PStr "http://d/x" ]}.

Definition full_disk_world : World :=
  MkWorld demo_client (fun _ => 2000) 0 two_chunk_server [] ∅
    (fun op => match op with Write _ pos => 2 <=? pos | _ => false end)
    (fun _ => true).

(** ** Sending and parsing, as one step *)

(** The world after [_get_session]. *)
Definition touch_session (w : World) : World :=
  if _session (self w) then w else with_self (set_session true (self w)) w.

(** The world after a request went out on the session. *)
Definition sent (req : request) (w : World) : World :=
  with_log (log w ++ [req]) (touch_session w).

(** The outcome of [session.get/post(...)] followed by [response.json()]. *)
Definition answer (req : request) (w : World) : result payload * World :=
  match server w (log w) req with
  | Reply r =>
    match json r with
    | Some p => (Ok p, sent req w)
    | None => (Raise JSONDecodeError, sent req w)
    end
  | Fault => (Raise RequestException, sent req w)
  end.

(** ** Construction and the authorization code *)

(** [__init__]: the expiry starts at 0 (unknown) and no session exists. *)
Definition __init__ (app_key secret_key : string)
    (access_token refresh_token : pyval) (auto_refresh : bool) : Client :=
  MkClient app_key secret_key access_token refresh_token auto_refresh 0 false.

Definition get_access_token (code redirect_uri : string) : M payload :=
  _get_session >>
  do c <- gets self;
  do response <- session_get "https://openapi.baidu.com/oauth/2.0/token"
    [("grant_type", Val (PStr "authorization_code"));
     ("code", Val (PStr code));
     ("client_id", Val (PStr (app_key c)));
     ("client_secret", Val (PStr (secret_key c)));
     ("redirect_uri", Val (PStr redirect_uri))];
  do result <- response_json response;
  match result !! "access_token" with
  | Some at' =>
    modify_self (set_access_token at') >>
    modify_self (set_refresh_token (dict_get result "refresh_token" PNone)) >>
    match result !! "expires_in" with
    | Some e =>
      do now <- time_time;
      match e with
      | PInt z => modify_self (set_token_expire_time (now + z))
      | PBool b =>
        modify_self (set_token_expire_time (now + if b then 1 else 0))
      | _ => raise TypeError
      end
    | None => ret tt
    end
  | None => ret tt
  end >>
  ret result.

(** ** What the further theorems speak about *)

Definition code_request (c : Client) (code redirect_uri : string) : request :=
  Request GET "https://openapi.baidu.com/oauth/2.0/token"
    [("grant_type", Val (PStr "authorization_code"));
     ("code", Val (PStr code));
     ("client_id", Val (PStr (app_key c)));
     ("client_secret", Val (PStr (secret_key c)));
     ("redirect_uri", Val (PStr redirect_uri))]
    [] None false.

(** The error of [refresh_access_token] when no refresh token is set. *)
Definition no_refresh_token : exn :=
  ValueError "未设置refresh_token，无法刷新token".

(** The condition under which [_check_token] refreshes, at the clock value
    the check is about to read. *)
Definition refresh_due (w : World) : bool :=
  (0 <? token_expire_time (self w))
  && (token_expire_time (self w) - 60 <=? clock w (ticks w))
  && auto_refresh (self w).

(** The operations that send one request and hand back its JSON. *)
Definition is_passthrough (c : call) : bool :=
  match c with
  | GetDownloadLink _ | DownloadFile _ _ _ | UploadFile _ _ _ => false
  | _ => true
  end.

Definition as_dict (x : result payload * World) : result retval * World :=
  match x with
  | (Ok p, w) => (Ok (RDict p), w)
  | (Raise e, w) => (Raise e, w)
  end.

(** The tail every pass-through operation shares: get the session, build
    the request from the instance, send it, parse the answer. *)
Definition send_json (mk : Client -> request) : M payload :=
  _get_session >>
  do c <- gets self;
  do response <- send (mk c);
  response_json response.

(** The pieces the [while True] loop of [_upload_large_file] reads. *)
Equations chunks_of (chunk_size : Z) (rest : list byte) : list (list byte)
  by wf (length rest) lt :=
  chunks_of chunk_size rest with inspect (f_read chunk_size rest) := {
    | exist _ ([], _) _ := [];
    | exist _ (b :: chunk, rest') e := (b :: chunk) :: chunks_of chunk_size rest' }.
Next Obligation. intros; eapply f_read_shrinks; eassumption. Qed.

(** The chunk uploads for [chunks], numbered from [block_index]. *)
Fixpoint chunk_requests (token : pyval) (remote_path : string)
    (upload_id : pyval) (block_index : Z) (chunks : list (list byte))
    : list request :=
  match chunks with
  | [] => []
  | chunk :: chunks' =>
    chunk_request token remote_path upload_id block_index chunk
    :: chunk_requests token remote_path upload_id (block_index + 1) chunks'
  end.

(** The world after the requests [reqs] went out, one after the other. *)
Definition sent_all (reqs : list request) (w : World) : World :=
  fold_left (fun w' req => sent req w') reqs w.

(** A vendor that answers the token endpoint with a new token and no refresh
    token, and everything else with an empty success. *)
Definition issuing_server (history : list request) (req : request) : outcome :=
  if String.eqb (url req) "https://openapi.baidu.com/oauth/2.0/token" then
    reply_with {[ "access_token" := PStr "new"; "expires_in" := PInt 3600 ]}
  else reply_with {[ "errno" := PInt 0 ]}.

Definition issuing_world (c : Client) : World :=
  MkWorld c (fun _ => 2000) 0 issuing_server [] ∅ (fun _ => false)
    (fun _ => true).

(** A vendor on which the transport fails for the chunk with index [k] and
    which accepts everything else, opening the session [u-1]. *)
Definition dropping_server (k : Z) (history : list request) (req : request)
    : outcome :=
  match partseq req with
  | Some i => if i =? k then Fault else reply_with session_opened
  | None => reply_with session_opened
  end.

Definition dropping_world (k : Z) (fs : gmap string (list byte)) : World :=
  MkWorld demo_client (fun _ => 2000) 0 (dropping_server k) [] fs
    (fun _ => false) (fun _ => true).

(** The answer to the streaming request of [download_file], when the call
    gets as far as opening the local file: the link is a non-empty string
    that [requests] takes for a URL, the request is answered with status
    200, and the directory and the file can be created. *)
Definition stream_opened (link : pyval) (w1 : World) (local_path : string)
    : option response :=
  match link with
  | PStr u =>
    if truthy link && http_link u && url_ok w1 u then
      match server w1 (log w1) (stream_request u) with
      | Reply r =>
        if (status_code r =? 200)
           && negb (fs_fault w1 (Makedirs local_path))
           && negb (fs_fault w1 (OpenWrite local_path))
        then Some r else None
      | Fault => None
      end
    else None
  | _ => None
  end.

(** [download_file] from the point where the link is known. *)
Definition download_from (download_link : pyval) (local_path : string)
    (chunk_size : Z) : M bool :=
  if negb (truthy download_link) then ret false
  else
    _get_session >>
    try_except
      (do response <- get_stream download_link;
       if negb (status_code response =? 200) then ret false
       else
         makedirs_parent local_path >>
         open_wb local_path >>
         closing local_path
           (write_chunks local_path (iter_content response chunk_size)) >>
         ret true)
      (fun e => ret false).

(** A vendor that never answers. *)
Definition dead_world (c : Client) (fs : gmap string (list byte)) : World :=
  MkWorld c (fun _ => 2000) 0 (fun _ _ => Fault) [] fs (fun _ => false)
    (fun _ => true).

(** * Theorems *)

(** ** The monad *)

Lemma bind_ok {A B} (m : M A) (f : A -> M B) w a w' :
  m w = (Ok a, w') -> bind m f w = f a w'.
Proof. unfold bind. intros ->. reflexivity. Qed.

Lemma bind_raise {A B} (m : M A) (f : A -> M B) w e w' :
  m w = (Raise e, w') -> bind m f w = (Raise e, w').
Proof. unfold bind. intros ->. reflexivity. Qed.

(** ** C9: the authorization link *)

Lemma string_app_assoc (a b c : string) : (a +:+ b) +:+ c = a +:+ (b +:+ c).
Proof.
  induction a as [|x a IH]; [reflexivity|].
  change (String x ((a +:+ b) +:+ c) = String x (a +:+ (b +:+ c))).
  now rewrite IH.
Qed.

(** C9: for every redirect URI (and every client), [get_auth_url] returns
    the authorize URL followed by the query string
    [client_id=<app_key>&response_type=code&redirect_uri=<uri>&scope=<scope>],
    the values put in as they are (nothing is percent-encoded) and in that
    order; when the caller passes no scope the scope is [basic,netdisk]. *)
Theorem get_auth_url_query (c : Client) (redirect_uri : string)
    (scope : option string) :
  get_auth_url c redirect_uri scope =
    "https://openapi.baidu.com/oauth/2.0/authorize?"
    +:+ "client_id=" +:+ app_key c
    +:+ "&response_type=code"
    +:+ "&redirect_uri=" +:+ redirect_uri
    +:+ "&scope=" +:+ default "basic,netdisk" scope
  /\ get_auth_url c redirect_uri None =
    "https://openapi.baidu.com/oauth/2.0/authorize?"
    +:+ "client_id=" +:+ app_key c
    +:+ "&response_type=code"
    +:+ "&redirect_uri=" +:+ redirect_uri
    +:+ "&scope=basic,netdisk".
Proof.
  unfold get_auth_url, default_scope; cbn [fmap list_fmap join_amp fst snd default].
  split; f_equal; rewrite !string_app_assoc; reflexivity.
Qed.

Example get_auth_url_test :
  get_auth_url demo_client "http://localhost/callback" None =
  "https://openapi.baidu.com/oauth/2.0/authorize?client_id=test_app_key&response_type=code&redirect_uri=http://localhost/callback&scope=basic,netdisk"
  /\ get_auth_url demo_client "http://localhost/callback" (Some "basic") =
  "https://openapi.baidu.com/oauth/2.0/authorize?client_id=test_app_key&response_type=code&redirect_uri=http://localhost/callback&scope=basic".
Proof. split; reflexivity. Qed.

(** ** Token management *)

Definition no_access_token : exn :=
  ValueError "未设置access_token，请先获取授权".

Lemma check_token_unset w :
  truthy (access_token (self w)) = false ->
  _check_token w = (Raise no_access_token, w).
Proof.
  intros Hat. unfold _check_token, bind, gets. simpl. rewrite Hat. reflexivity.
Qed.

Lemma returning_raise {A} (f : A -> retval) (m : M A) w e w' :
  m w = (Raise e, w') -> returning f m w = (Raise e, w').
Proof. intros Hm. unfold returning. now apply bind_raise. Qed.

Ltac run_M :=
  cbv [bind gets ret raise modify modify_self time_time send session_get
       session_post response_json _get_session try_except];
  cbn [self clock ticks server log files fs_fault url_ok with_self with_ticks
       with_log with_files fst snd
       app_key secret_key access_token refresh_token auto_refresh
       token_expire_time _session set_access_token set_refresh_token
       set_token_expire_time set_session].

(** A refresh that gets past its precondition sends exactly one request. *)
Lemma refresh_log w :
  truthy (refresh_token (self w)) = true ->
  log (snd (refresh_access_token w)) = log w ++ [refresh_request (self w)].
Proof.
  intros Hrt. unfold refresh_access_token, refresh_request. run_M.
  rewrite Hrt. cbn [negb].
  destruct (_session (self w)); run_M.
  all: destruct (server w (log w) _) as [[st [p|] ic]|]; run_M; try reflexivity.
  all: cbn [json].
  all: destruct (p !! "access_token"); run_M; try reflexivity;
    destruct (p !! "refresh_token"); run_M;
    destruct (p !! "expires_in") as [[]|]; run_M; reflexivity.
Qed.

(** C5: every token-gated operation (user info, quota, list, search,
    metadata, directory and file management, download link and download,
    upload, share management) called while no access token is set ([None]
    or the empty string) raises the [ValueError] of [_check_token], the
    local precondition error, and leaves the world as it was: in particular
    no request has been sent. *)
Theorem gated_call_without_token `{Hashlib} (c : call) (w : World) :
  truthy (access_token (self w)) = false ->
  exec c w = (Raise no_access_token, w).
Proof.
  intros Hat. pose proof (check_token_unset w Hat) as Hc.
  destruct c; cbn [exec]; apply returning_raise.
  all: try (apply bind_raise; exact Hc).
  apply bind_raise. unfold get_download_link. apply bind_raise. exact Hc.
Qed.

Lemma gated_call_without_token_witness :
  truthy (access_token (self (demo_world (set_access_token PNone demo_client) ∅ ∅)))
    = false
  /\ @exec md5_hashlib (UploadFile "a.txt" "/a.txt" "overwrite")
       (demo_world (set_access_token PNone demo_client) ∅ ∅)
     = (Raise no_access_token,
        demo_world (set_access_token PNone demo_client) ∅ ∅).
Proof.
  split; [reflexivity|].
  apply (@gated_call_without_token md5_hashlib). reflexivity.
Defined.

(** C10: when the token endpoint answers a refresh with a JSON object that
    has no [access_token] key, [refresh_access_token] returns that object,
    and the stored access token, refresh token and expiry are what they were
    before the call; the one request sent is the refresh request. *)
Theorem refresh_without_access_token (w : World) (r : response) (p : payload) :
  truthy (refresh_token (self w)) = true ->
  server w (log w) (refresh_request (self w)) = Reply r ->
  json r = Some p ->
  p !! "access_token" = None ->
  exists w',
    refresh_access_token w = (Ok p, w')
    /\ access_token (self w') = access_token (self w)
    /\ refresh_token (self w') = refresh_token (self w)
    /\ token_expire_time (self w') = token_expire_time (self w)
    /\ log w' = log w ++ [refresh_request (self w)].
Proof.
  intros Hrt Hsrv Hjson Hat.
  unfold refresh_access_token. unfold refresh_request in *. run_M.
  rewrite Hrt. cbn [negb].
  destruct (_session (self w)); run_M; rewrite Hsrv; run_M;
    rewrite Hjson, Hat; eexists; repeat split.
Qed.

Lemma refresh_without_access_token_witness :
  let p : payload := {[ "error" := PStr "invalid_grant" ]} in
  let w := demo_world demo_client p ∅ in
  exists w',
    refresh_access_token w = (Ok p, w')
    /\ access_token (self w') = access_token (self w)
    /\ refresh_token (self w') = refresh_token (self w)
    /\ token_expire_time (self w') = token_expire_time (self w)
    /\ log w' = log w ++ [refresh_request (self w)].
Proof.
  intros p w.
  apply (refresh_without_access_token w (Response 200 (Some p) (fun _ => [])) p);
    reflexivity.
Defined.

(** C6: a refresh answered with a non-empty [access_token] and
    [expires_in = E], the clock reading [T0] when the answer is processed,
    sets the expiry to [T0 + E].  From that client state, a token check whose
    clock reading [t] is strictly less than [E - 60] seconds after [T0] sends
    no request; a check with [t] at or after [T0 + E - 60], auto-refresh
    being enabled, sends exactly one request, the refresh request.  The
    side conditions are that the refresh token stays non-empty and that the
    expiry instant [T0 + E] is a positive time, as [_check_token] treats an
    expiry of 0 or less as unknown. *)
Theorem check_after_refresh (w : World) (r : response) (p : payload)
    (at' : pyval) (E : Z) :
  truthy (refresh_token (self w)) = true ->
  server w (log w) (refresh_request (self w)) = Reply r ->
  json r = Some p ->
  p !! "access_token" = Some at' ->
  truthy at' = true ->
  (forall v, p !! "refresh_token" = Some v -> truthy v = true) ->
  p !! "expires_in" = Some (PInt E) ->
  exists w1,
    refresh_access_token w = (Ok p, w1)
    /\ token_expire_time (self w1) = clock w (ticks w) + E
    /\ forall w2, self w2 = self w1 ->
       (clock w2 (ticks w2) < clock w (ticks w) + E - 60 ->
          exists w3, _check_token w2 = (Ok tt, w3) /\ log w3 = log w2)
       /\ (clock w (ticks w) + E - 60 <= clock w2 (ticks w2) ->
           0 < clock w (ticks w) + E ->
           auto_refresh (self w) = true ->
           log (snd (_check_token w2)) = log w2 ++ [refresh_request (self w2)]).
Proof.
  intros Hrt Hsrv Hjson Hat Hat' Hrt' Hexp.
  assert (exists w1, refresh_access_token w = (Ok p, w1)
            /\ token_expire_time (self w1) = clock w (ticks w) + E
            /\ access_token (self w1) = at'
            /\ truthy (refresh_token (self w1)) = true
            /\ auto_refresh (self w1) = auto_refresh (self w)) as (w1 & Hrun & Hexp1 & Hat1 & Hrt1 & Har1).
  { unfold refresh_access_token. unfold refresh_request in *. run_M.
    rewrite Hrt. cbn [negb].
    destruct (_session (self w)); run_M; rewrite Hsrv; run_M;
      rewrite Hjson, Hat; run_M; rewrite Hexp;
      destruct (p !! "refresh_token") as [v|] eqn:Hv; run_M;
      eexists; repeat split; auto. }
  exists w1. split; [exact Hrun|]. split; [exact Hexp1|].
  intros w2 Hself. split.
  - intros Hlt. unfold _check_token. run_M.
    rewrite Hself, Hat1, Hat'. cbn [negb]. run_M. rewrite Hself, Hexp1.
    replace (clock w (ticks w) + E - 60 <=? clock w2 (ticks w2)) with false
      by (symmetry; apply Z.leb_gt; lia).
    rewrite andb_false_r. cbn [andb]. eexists. split; reflexivity.
  - intros Hge Hpos Har.
    pose proof (refresh_log (with_ticks (S (ticks w2)) w2)) as Hlog.
    cbn [self with_ticks log] in Hlog. rewrite Hself in Hlog.
    specialize (Hlog Hrt1).
    unfold _check_token. run_M.
    rewrite Hself, Hat1, Hat'. cbn [negb]. run_M.
    rewrite Hself, Hexp1, Har1, Har.
    replace (0 <? clock w (ticks w) + E) with true
      by (symmetry; apply Z.ltb_lt; lia).
    replace (clock w (ticks w) + E - 60 <=? clock w2 (ticks w2)) with true
      by (symmetry; apply Z.leb_le; lia).
    cbn [andb].
    destruct (refresh_access_token (with_ticks (S (ticks w2)) w2)) as [[x|e] w3];
      cbn [snd] in Hlog; cbn [snd]; exact Hlog.
Qed.

Lemma check_after_refresh_witness :
  let p : payload :=
    {[ "access_token" := PStr "new"; "expires_in" := PInt 2592000 ]} in
  let w := demo_world demo_client p ∅ in
  truthy (refresh_token (self w)) = true
  /\ exists w1,
    refresh_access_token w = (Ok p, w1)
    /\ token_expire_time (self w1) = clock w (ticks w) + 2592000
    /\ forall w2, self w2 = self w1 ->
       (clock w2 (ticks w2) < clock w (ticks w) + 2592000 - 60 ->
          exists w3, _check_token w2 = (Ok tt, w3) /\ log w3 = log w2)
       /\ (clock w (ticks w) + 2592000 - 60 <= clock w2 (ticks w2) ->
           0 < clock w (ticks w) + 2592000 ->
           auto_refresh (self w) = true ->
           log (snd (_check_token w2)) = log w2 ++ [refresh_request (self w2)]).
Proof.
  intros p w. split; [reflexivity|].
  apply (check_after_refresh w (Response 200 (Some p) (fun _ => [])) p
           (PStr "new") 2592000); try reflexivity.
  intros v Hv. vm_compute in Hv. discriminate Hv.
Defined.

(** The boundary on a concrete clock: refreshed at 2000 with a lifetime of
    2592000 seconds, the check at 2593939 is silent and the check at 2593940
    refreshes. *)
Example check_boundary :
  let p : payload :=
    {[ "access_token" := PStr "new"; "expires_in" := PInt 2592000 ]} in
  let w1 := snd (refresh_access_token (demo_world demo_client p ∅)) in
  let at_time t := MkWorld (self w1) (fun _ => t) 0 (server w1) [] ∅
                     (fs_fault w1) (url_ok w1) in
  token_expire_time (self w1) = 2594000
  /\ log (snd (_check_token (at_time 2593939))) = []
  /\ log (snd (_check_token (at_time 2593940))) = [refresh_request (self w1)].
Proof. vm_compute. repeat split. Qed.

(** ** Reading a file by pieces *)

Lemma read_upto_take_drop n rest :
  read_upto n rest = (take (Z.to_nat n) rest, drop (Z.to_nat n) rest).
Proof.
  revert n. induction rest as [|b rest IH]; intros n; cbn [read_upto].
  - now rewrite take_nil, drop_nil.
  - destruct (Z.leb_spec n 0) as [Hle|Hgt].
    + replace (Z.to_nat n) with 0%nat by lia. reflexivity.
    + rewrite IH. replace (Z.to_nat n) with (S (Z.to_nat (n - 1))) by lia.
      reflexivity.
Qed.

Lemma f_read_take_drop n rest :
  0 <= n ->
  f_read n rest = (take (Z.to_nat n) rest, drop (Z.to_nat n) rest).
Proof.
  intros Hn. unfold f_read.
  destruct (Z.ltb_spec n 0); [lia|]. apply read_upto_take_drop.
Qed.

(** What [f.read] returns and what it leaves make up what was there. *)
Lemma f_read_app n rest chunk rest' :
  f_read n rest = (chunk, rest') -> rest = chunk ++ rest'.
Proof.
  unfold f_read. destruct (n <? 0).
  - intros [= <- <-]. now rewrite app_nil_r.
  - rewrite read_upto_take_drop. intros [= <- <-].
    symmetry. apply take_drop.
Qed.

(** With a positive size, [f.read] returns [b""] only at the end of file. *)
Lemma f_read_eof n rest rest' :
  0 < n -> f_read n rest = ([], rest') -> rest = [].
Proof.
  intros Hn. rewrite f_read_take_drop by lia. intros [= Ht _].
  destruct rest as [|b rest]; [reflexivity|].
  replace (Z.to_nat n) with (S (Z.to_nat (n - 1))) in Ht by lia.
  discriminate Ht.
Qed.

(** ** C8: the whole-file hash *)

Section Hashing.
Context `{Hashlib}.

Lemma md5_of_stream_update (md5 : md5_state) (rest : list byte) :
  md5_of_stream md5 rest = md5_update md5 rest.
Proof.
  funelim (md5_of_stream md5 rest).
  - match goal with E : f_read 4096 _ = ([], _) |- _ =>
      rewrite (f_read_eof 4096 _ _ ltac:(lia) E) end.
    symmetry. apply md5_update_nil.
  - match goal with IH : md5_of_stream _ _ = md5_update _ _ |- _ =>
      rewrite IH end.
    match goal with E : f_read 4096 _ = (_, _) |- _ =>
      rewrite (f_read_app _ _ _ _ E) end.
    apply md5_update_app.
Qed.

Lemma calculate_file_md5_run (file_path : string) (content : list byte)
    (w : World) :
  files w !! file_path = Some content ->
  _calculate_file_md5 file_path w
  = (Ok (md5_hexdigest (md5_update md5_new content)), w).
Proof.
  intros Hf. unfold _calculate_file_md5, open_rb. run_M.
  rewrite Hf. rewrite md5_of_stream_update. reflexivity.
Qed.

(** C8: for every readable file, the hash [_calculate_file_md5] computes by
    reading 4096 bytes at a time and updating one MD5 object per read is the
    MD5 of the whole content, [hashlib.md5(content).hexdigest()]; the call
    changes nothing in the world. *)
Theorem calculate_file_md5_whole (file_path : string) (content : list byte)
    (w : World) :
  files w !! file_path = Some content ->
  _calculate_file_md5 file_path w = (Ok (md5_hex content), w).
Proof. intros Hf. unfold md5_hex. now apply calculate_file_md5_run. Qed.

End Hashing.

Lemma calculate_file_md5_whole_witness :
  let w := demo_world demo_client ∅ {[ "a.txt" := hundred_bytes ]} in
  files w !! "a.txt" = Some hundred_bytes
  /\ @_calculate_file_md5 md5_hashlib "a.txt" w
     = (Ok (@md5_hex md5_hashlib hundred_bytes), w).
Proof.
  intros w. split; [reflexivity|].
  apply (@calculate_file_md5_whole md5_hashlib "a.txt" hundred_bytes w).
  reflexivity.
Defined.

(** RFC 1321 test vectors, and a file that takes two reads. *)
Example md5_test_vectors :
  MD5.hexdigest [] = "d41d8cd98f00b204e9800998ecf8427e"
  /\ MD5.hexdigest (String.list_byte_of_string "abc")
     = "900150983cd24fb0d6963f7d28e17f72".
Proof. vm_compute. split; reflexivity. Qed.

Example calculate_file_md5_two_reads :
  fst (@_calculate_file_md5 md5_hashlib "big"
         (demo_world demo_client ∅ {[ "big" := repeat x61 5000 ]}))
  = Ok "7aaa7dec709fa4fa82f3746abfd80bdb".
Proof. vm_compute. reflexivity. Qed.

(** ** Requests that are sent and parsed *)

Lemma get_session_run w : _get_session w = (Ok tt, touch_session w).
Proof. unfold touch_session. run_M. now destruct (_session (self w)). Qed.

Lemma touch_session_frame w :
  access_token (self (touch_session w)) = access_token (self w)
  /\ server (touch_session w) = server w
  /\ log (touch_session w) = log w
  /\ files (touch_session w) = files w.
Proof. unfold touch_session. now destruct (_session (self w)). Qed.

Lemma sent_frame req w :
  access_token (self (sent req w)) = access_token (self w)
  /\ server (sent req w) = server w
  /\ log (sent req w) = log w ++ [req]
  /\ files (sent req w) = files w.
Proof.
  unfold sent. destruct (touch_session_frame w) as (? & ? & ? & ?).
  cbn [self server log files with_log]. auto.
Qed.

Lemma answer_frame req w res w' :
  answer req w = (res, w') ->
  access_token (self w') = access_token (self w)
  /\ server w' = server w
  /\ log w' = log w ++ [req]
  /\ files w' = files w.
Proof.
  unfold answer. intros Ha.
  destruct (server w (log w) req) as [[st [p|] ic]|]; cbn [json] in Ha;
    injection Ha as <- <-; apply sent_frame.
Qed.

Ltac run_session :=
  unfold answer, sent, touch_session; run_M;
  destruct (_session (self _)); run_M;
  destruct (server _ _ _) as [[? [?|] ?]|]; reflexivity.

Lemma upload_chunk_answer chunk remote_path upload_id block_index w :
  _upload_chunk chunk remote_path upload_id block_index w =
  answer (chunk_request (access_token (self w)) remote_path upload_id
            block_index chunk) w.
Proof. unfold _upload_chunk, chunk_request, token_param. run_session. Qed.

Lemma precreate_file_answer remote_path file_size md5 ondup w :
  _precreate_file remote_path file_size md5 ondup w =
  answer (precreate_request (access_token (self w)) remote_path file_size
            ondup) w.
Proof. unfold _precreate_file, precreate_request, token_param. run_session. Qed.

Lemma create_file_answer remote_path file_size upload_id block_list ondup w :
  _create_file remote_path file_size upload_id block_list ondup w =
  answer (finalize_request (access_token (self w)) remote_path file_size
            upload_id block_list ondup) w.
Proof. unfold _create_file, finalize_request, token_param. run_session. Qed.

Lemma upload_small_file_answer local_path remote_path ondup content w :
  files w !! local_path = Some content ->
  _upload_small_file local_path remote_path ondup w =
  answer (small_upload_request (access_token (self w)) remote_path ondup
            content) w.
Proof.
  intros Hf.
  unfold _upload_small_file, small_upload_request, token_param, open_rb.
  unfold answer, sent, touch_session; run_M.
  destruct (_session (self w)); run_M; rewrite Hf;
    destruct (server _ _ _) as [[? [?|] ?]|]; reflexivity.
Qed.

(** ** The chunk loop *)

Section Upload.
Context `{Hashlib}.

Lemma upload_loop_step chunk_size remote_path upload_id rest block_index
    block_list :
  upload_loop chunk_size remote_path upload_id rest block_index block_list =
  match f_read chunk_size rest with
  | ([], _) => ret (inr block_list)
  | (chunk, rest') =>
    do result <- _upload_chunk chunk remote_path upload_id block_index;
    if errno_nonzero result then ret (inl result)
    else upload_loop chunk_size remote_path upload_id rest'
           (block_index + 1) (block_list ++ [md5_hex chunk])
  end.
Proof.
  funelim (upload_loop chunk_size remote_path upload_id rest block_index
             block_list);
    match goal with E : f_read _ _ = _ |- _ => rewrite E end; reflexivity.
Qed.

Lemma answer_reply req w res w' r p :
  answer req w = (res, w') ->
  server w (log w) req = Reply r -> json r = Some p -> res = Ok p.
Proof.
  unfold answer. intros Ha Hs Hj. rewrite Hs, Hj in Ha.
  now injection Ha as <- _.
Qed.

Ltac trace_with new :=
  split; [|split; [|split; [|exists new; split; [|split]]]].

(** What one run of the loop adds to the log: chunk uploads numbered from
    [block_index] on, and a chunk whose answer carries a non-zero [errno] is
    the last request and its answer is what the loop returns. *)
Lemma upload_loop_trace chunk_size remote_path upload_id (n : nat) :
  forall rest block_index block_list w res w',
  (length rest <= n)%nat ->
  upload_loop chunk_size remote_path upload_id rest block_index block_list w
    = (res, w') ->
  access_token (self w') = access_token (self w)
  /\ server w' = server w
  /\ files w' = files w
  /\ exists new,
       log w' = log w ++ new
       /\ (forall (j : nat) q, new !! j = Some q ->
             exists chunk,
               q = chunk_request (access_token (self w)) remote_path upload_id
                     (block_index + Z.of_nat j) chunk)
       /\ (forall pre q post r p,
             new = pre ++ q :: post ->
             server w (log w ++ pre) q = Reply r ->
             json r = Some p ->
             errno_nonzero p = true ->
             post = [] /\ res = Ok (inl p)).
Proof.
  induction n as [|n IH]; intros rest block_index block_list w res w' Hlen;
    rewrite upload_loop_step;
    destruct (f_read chunk_size rest) as [[|b chunk] rest'] eqn:E.
  1, 3: intros [= <- <-]; trace_with (@nil request);
    [reflexivity | reflexivity | reflexivity | now rewrite app_nil_r
    |intros j q Hq; discriminate Hq
    |intros [|? ?] ? ? ? ? Hn; discriminate Hn].
  - apply f_read_shrinks in E. lia.
  - pose proof (f_read_shrinks _ _ _ _ _ E) as Hshrink.
    unfold bind. rewrite upload_chunk_answer.
    set (req := chunk_request (access_token (self w)) remote_path upload_id
                  block_index (b :: chunk)).
    destruct (answer req w) as [[p|e] w1] eqn:Ha;
      destruct (answer_frame _ _ _ _ Ha) as (Hat & Hsrv & Hlog & Hfiles).
    2: { intros [= <- <-]. trace_with [req]; auto.
         - intros [|j] q Hq; [|destruct j; discriminate Hq].
           injection Hq as <-. exists (b :: chunk). now rewrite Z.add_0_r.
         - intros [|q0 [|q1 pre]] q post r p Hn Hs Hj He; try discriminate Hn.
           injection Hn as <- <-. rewrite app_nil_r in Hs.
           pose proof (answer_reply _ _ _ _ _ _ Ha Hs Hj) as Hr.
           discriminate Hr. }
    destruct (errno_nonzero p) eqn:Hp.
    + intros [= <- <-]. trace_with [req]; auto.
      * intros [|j] q Hq; [|destruct j; discriminate Hq].
        injection Hq as <-. exists (b :: chunk). now rewrite Z.add_0_r.
      * intros [|q0 [|q1 pre]] q post r p0 Hn Hs Hj He; try discriminate Hn.
        injection Hn as <- <-. rewrite app_nil_r in Hs.
        pose proof (answer_reply _ _ _ _ _ _ Ha Hs Hj) as Hr.
        injection Hr as <-. split; reflexivity.
    + intros Hrun. apply IH in Hrun; [|lia].
      destruct Hrun as (Hat' & Hsrv' & Hfiles' & new & Hlog' & Hnum & Herr).
      trace_with (req :: new); try congruence.
      * rewrite Hlog', Hlog, <- app_assoc. reflexivity.
      * intros [|j] q Hq.
        -- injection Hq as <-. exists (b :: chunk). now rewrite Z.add_0_r.
        -- destruct (Hnum j q Hq) as [c ->]. exists c. rewrite Hat.
           f_equal. lia.
      * intros [|q0 pre] q post r p0 Hn Hs Hj He.
        -- injection Hn as <- <-. rewrite app_nil_r in Hs.
           pose proof (answer_reply _ _ _ _ _ _ Ha Hs Hj) as Hr.
           injection Hr as <-. congruence.
        -- injection Hn as <- ->.
           apply (Herr pre q post r p0); auto.
           rewrite Hsrv, Hlog, <- app_assoc. exact Hs.
Qed.

(** ** The chunked upload as a whole *)

(** [_upload_large_file] on a readable file, one request at a time. *)
Lemma upload_large_file_run local_path remote_path ondup content w :
  files w !! local_path = Some content ->
  _upload_large_file local_path remote_path ondup w =
  let file_size := Z.of_nat (length content) in
  match answer (precreate_request (access_token (self w)) remote_path
                  file_size ondup) w with
  | (Ok precreate_result, w1) =>
    if errno_nonzero precreate_result then (Ok precreate_result, w1)
    else
      let upload_id :=
        dict_get precreate_result "uploadid" (PStr EmptyString) in
      if negb (truthy upload_id) then (Ok missing_upload_id, w1)
      else
        match upload_loop (4 * 1024 * 1024) remote_path upload_id content 0 []
                w1 with
        | (Ok (inl result), w2) => (Ok result, w2)
        | (Ok (inr block_list), w2) =>
          answer (finalize_request (access_token (self w2)) remote_path
                    file_size upload_id block_list ondup) w2
        | (Raise e, w2) => (Raise e, w2)
        end
  | (Raise e, w1) => (Raise e, w1)
  end.
Proof.
  intros Hf. unfold _upload_large_file.
  unfold bind at 1. unfold getsize. rewrite Hf.
  unfold bind at 1. rewrite (calculate_file_md5_run _ _ _ Hf).
  unfold bind at 1. rewrite precreate_file_answer. cbv zeta.
  destruct (answer _ w) as [[p0|e] w1] eqn:Ha; [|reflexivity].
  destruct (answer_frame _ _ _ _ Ha) as (_ & _ & _ & Hfiles).
  destruct (errno_nonzero p0); [reflexivity|].
  destruct (negb (truthy _)); [reflexivity|].
  unfold bind at 1. unfold open_rb. rewrite Hfiles, Hf.
  unfold bind at 1.
  destruct (upload_loop _ _ _ _ _ _ w1) as [[[res|bl]|e] w2]; try reflexivity.
  apply create_file_answer.
Qed.

(** ** C4: a precreate answer without upload id *)

(** C4, as the code has it: when the precreate answer has no non-zero
    [errno] and no non-empty [uploadid], [_upload_large_file] raises nothing:
    it returns the dictionary [{"errno": -1, "errmsg": ...}] built on the
    spot, and the precreate call is the only request it has sent (no chunk,
    no finalize). *)
Theorem precreate_without_upload_id local_path remote_path ondup content w r p :
  files w !! local_path = Some content ->
  server w (log w)
    (precreate_request (access_token (self w)) remote_path
       (Z.of_nat (length content)) ondup) = Reply r ->
  json r = Some p ->
  errno_nonzero p = false ->
  truthy (dict_get p "uploadid" (PStr EmptyString)) = false ->
  exists w',
    _upload_large_file local_path remote_path ondup w
      = (Ok missing_upload_id, w')
    /\ missing_upload_id !! "errno" = Some (PInt (-1))
    /\ log w' =
       log w ++ [precreate_request (access_token (self w)) remote_path
                   (Z.of_nat (length content)) ondup].
Proof.
  intros Hf Hs Hj He Hu.
  rewrite (upload_large_file_run _ _ _ _ _ Hf). cbv zeta.
  unfold answer. rewrite Hs, Hj, He, Hu. cbn [negb].
  eexists. split; [reflexivity|]. split; [reflexivity|].
  apply sent_frame.
Qed.

End Upload.

Lemma precreate_without_upload_id_witness :
  let p : payload := {[ "errno" := PInt 0 ]} in
  let w := demo_world demo_client p {[ "a.txt" := hundred_bytes ]} in
  exists w',
    @_upload_large_file md5_hashlib "a.txt" "/a.txt" "overwrite" w
      = (Ok missing_upload_id, w')
    /\ missing_upload_id !! "errno" = Some (PInt (-1))
    /\ log w' =
       log w ++ [precreate_request (PStr "tok") "/a.txt" 100 "overwrite"].
Proof.
  intros p w.
  apply (@precreate_without_upload_id md5_hashlib "a.txt" "/a.txt" "overwrite"
           hundred_bytes w (Response 200 (Some p) (fun _ => [])) p);
    reflexivity.
Defined.

(** C4 read as a raised protocol error does not hold: on the precreate answer
    [{"errno": 0}] the call returns normally, with the error dictionary. *)
Lemma missing_upload_id_is_returned :
  let w := demo_world demo_client {[ "errno" := PInt 0 ]}
             {[ "a.txt" := hundred_bytes ]} in
  fst (@_upload_large_file md5_hashlib "a.txt" "/a.txt" "overwrite" w)
    = Ok missing_upload_id
  /\ forall e,
       fst (@_upload_large_file md5_hashlib "a.txt" "/a.txt" "overwrite" w)
         <> Raise e.
Proof.
  intros w.
  assert (fst (@_upload_large_file md5_hashlib "a.txt" "/a.txt" "overwrite" w)
          = Ok missing_upload_id) as Hrun by (vm_compute; reflexivity).
  split; [exact Hrun|]. intros e. rewrite Hrun. discriminate.
Qed.

(** ** C2: a failed chunk ends the upload *)

Lemma is_chunk_precreate token remote_path file_size ondup :
  is_chunk (precreate_request token remote_path file_size ondup) = false.
Proof. reflexivity. Qed.

Lemma is_chunk_finalize token remote_path file_size upload_id block_list ondup :
  is_chunk (finalize_request token remote_path file_size upload_id block_list
              ondup) = false.
Proof. reflexivity. Qed.

Lemma partseq_chunk token remote_path upload_id block_index chunk :
  partseq (chunk_request token remote_path upload_id block_index chunk)
  = Some block_index.
Proof. reflexivity. Qed.

Section ChunkFailure.
Context `{Hashlib}.

(** C2: in a run of [_upload_large_file], a chunk upload that the vendor
    answers with a non-zero [errno] is the last request of the run (no chunk
    and no finalize call follows it), its answer is what the run returns, and
    every chunk uploaded before it carries a smaller index: no chunk with a
    higher index is uploaded at all. *)
Theorem failed_chunk_is_last local_path remote_path ondup w res w'
    pre q post r p :
  _upload_large_file local_path remote_path ondup w = (res, w') ->
  log w' = log w ++ pre ++ q :: post ->
  is_chunk q = true ->
  server w (log w ++ pre) q = Reply r ->
  json r = Some p ->
  errno_nonzero p = true ->
  res = Ok p
  /\ post = []
  /\ forall q', q' ∈ pre -> is_chunk q' = true ->
       exists i i', partseq q = Some i /\ partseq q' = Some i' /\ i' < i.
Proof.
  intros Hrun Hlog Hq Hs Hj He.
  destruct (files w !! local_path) as [content|] eqn:Hf.
  2: { unfold _upload_large_file, bind, getsize in Hrun. rewrite Hf in Hrun.
       injection Hrun as <- <-.
       rewrite <- (app_nil_r (log w)) in Hlog at 1.
       apply app_inv_head in Hlog. destruct pre; discriminate Hlog. }
  rewrite (upload_large_file_run _ _ _ _ _ Hf) in Hrun. cbv zeta in Hrun.
  set (P := precreate_request _ _ _ _) in Hrun.
  destruct (answer P w) as [[p0|e] w1] eqn:Ha;
    destruct (answer_frame _ _ _ _ Ha) as (Hat1 & Hsrv1 & Hlog1 & _).
  2: { injection Hrun as <- <-. exfalso.
       rewrite Hlog1 in Hlog. apply app_inv_head in Hlog.
       destruct pre as [|q0 [|q1 pre]]; try discriminate Hlog.
       injection Hlog as <- _. discriminate Hq. }
  assert (log w1 = log w ++ pre ++ q :: post -> False) as Hstop.
  { intros Hl. rewrite Hlog1 in Hl. apply app_inv_head in Hl.
    destruct pre as [|q0 [|q1 pre]]; try discriminate Hl.
    injection Hl as <- _. discriminate Hq. }
  destruct (errno_nonzero p0).
  { injection Hrun as <- <-. now exfalso. }
  destruct (negb (truthy _)).
  { injection Hrun as <- <-. now exfalso. }
  clear Hstop.
  destruct (upload_loop _ _ _ _ _ _ w1) as [lres w2] eqn:Hloop.
  apply (upload_loop_trace _ _ _ (length content)) in Hloop; [|lia].
  destruct Hloop as (Hat2 & Hsrv2 & _ & new & Hlog2 & Hnum & Herr).
  assert (forall post', new = tail pre ++ q :: post' ->
            pre = P :: tail pre
            /\ post' = [] /\ lres = Ok (inl p)) as Hin.
  { intros post' Hnew.
    assert (pre = P :: tail pre) as Hpre.
    { destruct lres as [[?|?]|?].
      - injection Hrun as <- <-. rewrite Hlog2, Hlog1, <- app_assoc in Hlog.
        apply app_inv_head in Hlog. destruct pre as [|q0 pre].
        + injection Hlog as <- _. discriminate Hq.
        + now injection Hlog as <- _.
      - destruct (answer_frame _ _ _ _ Hrun) as (_ & _ & Hlog3 & _).
        rewrite Hlog3, Hlog2, Hlog1, <- !app_assoc in Hlog.
        apply app_inv_head in Hlog. destruct pre as [|q0 pre].
        + injection Hlog as <- _. discriminate Hq.
        + now injection Hlog as <- _.
      - injection Hrun as <- <-. rewrite Hlog2, Hlog1, <- app_assoc in Hlog.
        apply app_inv_head in Hlog. destruct pre as [|q0 pre].
        + injection Hlog as <- _. discriminate Hq.
        + now injection Hlog as <- _. }
    split; [exact Hpre|].
    apply (Herr (tail pre) q post' r p Hnew); auto.
    rewrite Hsrv1, Hlog1, <- app_assoc. cbn [app]. rewrite <- Hpre. exact Hs. }
  assert (exists post', new = tail pre ++ q :: post'
             /\ (lres = Ok (inl p) -> post = post')) as (post' & Hnew & Hpost).
  { destruct lres as [[res0|bl]|e].
    - injection Hrun as <- <-. rewrite Hlog2, Hlog1, <- app_assoc in Hlog.
      apply app_inv_head in Hlog. destruct pre as [|q0 pre].
      + injection Hlog as <- _. discriminate Hq.
      + injection Hlog as _ ->. exists post. split; auto.
    - destruct (answer_frame _ _ _ _ Hrun) as (_ & _ & Hlog3 & _).
      rewrite Hlog3, Hlog2, Hlog1, <- !app_assoc in Hlog.
      apply app_inv_head in Hlog. destruct pre as [|q0 pre].
      + injection Hlog as <- _. discriminate Hq.
      + injection Hlog as _ Hlog. cbn [tail].
        destruct post as [|x post _] using rev_ind.
        * apply (app_inj_tail new pre) in Hlog as [_ <-]. discriminate Hq.
        * rewrite app_comm_cons, app_assoc in Hlog.
          apply app_inj_tail in Hlog as [-> _].
          exists post. split; [reflexivity|]. discriminate.
    - injection Hrun as <- <-. rewrite Hlog2, Hlog1, <- app_assoc in Hlog.
      apply app_inv_head in Hlog. destruct pre as [|q0 pre].
      + injection Hlog as <- _. discriminate Hq.
      + injection Hlog as _ ->. exists post. split; auto. }
  destruct (Hin post' Hnew) as (Hpre & -> & ->).
  rewrite (Hpost eq_refl). injection Hrun as <- _.
  split; [reflexivity|]. split; [reflexivity|].
  intros q' Hq' Hc'. rewrite Hpre in Hq'.
  apply elem_of_cons in Hq' as [->|Hq']; [discriminate Hc'|].
  apply list_elem_of_lookup in Hq' as [j Hj'].
  pose proof (lookup_lt_Some _ _ _ Hj') as Hlt.
  destruct (Hnum j q') as [c' ->].
  { rewrite Hnew. now apply lookup_app_l_Some. }
  destruct (Hnum (length (tail pre)) q) as [c ->].
  { rewrite Hnew. now rewrite list_lookup_middle. }
  exists (0 + Z.of_nat (length (tail pre))), (0 + Z.of_nat j).
  rewrite !partseq_chunk. repeat split; lia.
Qed.

End ChunkFailure.

(** ** C3: a file of 4 MiB and one byte *)

Lemma sent_token req w :
  access_token (self (sent req w)) = access_token (self w).
Proof. apply sent_frame. Qed.

Lemma sent_server req w : server (sent req w) = server w.
Proof. apply sent_frame. Qed.

Lemma sent_log req w : log (sent req w) = log w ++ [req].
Proof. apply sent_frame. Qed.

Lemma answer_ok req w r p :
  server w (log w) req = Reply r -> json r = Some p ->
  answer req w = (Ok p, sent req w).
Proof. unfold answer. now intros -> ->. Qed.

Section TwoChunks.
Context `{Hashlib}.

Lemma upload_loop_eof chunk_size remote_path upload_id block_index block_list w :
  upload_loop chunk_size remote_path upload_id [] block_index block_list w
  = (Ok (inr block_list), w).
Proof.
  rewrite upload_loop_step. unfold f_read.
  destruct (chunk_size <? 0); reflexivity.
Qed.

(** One turn of the loop on a chunk the vendor accepts. *)
Lemma upload_loop_accepted chunk_size remote_path upload_id rest block_index
    block_list w r p :
  0 < chunk_size -> rest <> [] ->
  server w (log w)
    (chunk_request (access_token (self w)) remote_path upload_id block_index
       (take (Z.to_nat chunk_size) rest)) = Reply r ->
  json r = Some p ->
  errno_nonzero p = false ->
  upload_loop chunk_size remote_path upload_id rest block_index block_list w
  = upload_loop chunk_size remote_path upload_id
      (drop (Z.to_nat chunk_size) rest) (block_index + 1)
      (block_list ++ [md5_hex (take (Z.to_nat chunk_size) rest)])
      (sent (chunk_request (access_token (self w)) remote_path upload_id
               block_index (take (Z.to_nat chunk_size) rest)) w).
Proof.
  intros Hpos Hne Hs Hj He.
  rewrite upload_loop_step, f_read_take_drop by lia.
  destruct (take (Z.to_nat chunk_size) rest) as [|b chunk] eqn:Et.
  { destruct rest as [|x rest]; [congruence|].
    replace (Z.to_nat chunk_size) with (S (Z.to_nat (chunk_size - 1))) in Et
      by lia.
    discriminate Et. }
  unfold bind. rewrite upload_chunk_answer, (answer_ok _ _ _ _ Hs Hj), He.
  reflexivity.
Qed.

(** One turn of the loop on a chunk the vendor refuses. *)
Lemma upload_loop_refused chunk_size remote_path upload_id rest block_index
    block_list w r p :
  0 < chunk_size -> rest <> [] ->
  server w (log w)
    (chunk_request (access_token (self w)) remote_path upload_id block_index
       (take (Z.to_nat chunk_size) rest)) = Reply r ->
  json r = Some p ->
  errno_nonzero p = true ->
  upload_loop chunk_size remote_path upload_id rest block_index block_list w
  = (Ok (inl p),
     sent (chunk_request (access_token (self w)) remote_path upload_id
             block_index (take (Z.to_nat chunk_size) rest)) w).
Proof.
  intros Hpos Hne Hs Hj He.
  rewrite upload_loop_step, f_read_take_drop by lia.
  destruct (take (Z.to_nat chunk_size) rest) as [|b chunk] eqn:Et.
  { destruct rest as [|x rest]; [congruence|].
    replace (Z.to_nat chunk_size) with (S (Z.to_nat (chunk_size - 1))) in Et
      by lia.
    discriminate Et. }
  unfold bind. rewrite upload_chunk_answer, (answer_ok _ _ _ _ Hs Hj), He.
  reflexivity.
Qed.

(** C3: [_upload_large_file] on a file of exactly [4 * 1024 * 1024 + 1]
    bytes, the vendor accepting the precreate call and both chunks, sends
    four requests: precreate, the chunk with index 0 holding the first
    4,194,304 bytes, the chunk with index 1 holding the last byte, and the
    finalize call, whose block list is the MD5 of the first chunk followed by
    the MD5 of the second. *)
Theorem two_chunks local_path remote_path ondup content w r0 p0 r1 p1 r2 p2 :
  let token := access_token (self w) in
  let file_size := 4 * 1024 * 1024 + 1 in
  let upload_id := dict_get p0 "uploadid" (PStr EmptyString) in
  let chunk0 := take (Z.to_nat (4 * 1024 * 1024)) content in
  let chunk1 := drop (Z.to_nat (4 * 1024 * 1024)) content in
  let P := precreate_request token remote_path file_size ondup in
  let Q0 := chunk_request token remote_path upload_id 0 chunk0 in
  let Q1 := chunk_request token remote_path upload_id 1 chunk1 in
  let F := finalize_request token remote_path file_size upload_id
             [md5_hex chunk0; md5_hex chunk1] ondup in
  files w !! local_path = Some content ->
  Z.of_nat (length content) = file_size ->
  server w (log w) P = Reply r0 -> json r0 = Some p0 ->
  errno_nonzero p0 = false -> truthy upload_id = true ->
  server w (log w ++ [P]) Q0 = Reply r1 -> json r1 = Some p1 ->
  errno_nonzero p1 = false ->
  server w (log w ++ [P; Q0]) Q1 = Reply r2 -> json r2 = Some p2 ->
  errno_nonzero p2 = false ->
  content = chunk0 ++ chunk1
  /\ Z.of_nat (length chunk0) = 4194304
  /\ Z.of_nat (length chunk1) = 1
  /\ log (snd (_upload_large_file local_path remote_path ondup w))
     = log w ++ [P; Q0; Q1; F].
Proof.
  intros token file_size upload_id chunk0 chunk1 P Q0 Q1 F
    Hf Hlen Hs0 Hj0 He0 Hu Hs1 Hj1 He1 Hs2 Hj2 He2.
  assert (Hl0 : Z.of_nat (length chunk0) = 4194304)
    by (subst chunk0 file_size; rewrite length_take; lia).
  assert (Hl1 : Z.of_nat (length chunk1) = 1)
    by (subst chunk1 file_size; rewrite length_drop; lia).
  split; [symmetry; apply take_drop|]. split; [exact Hl0|].
  split; [exact Hl1|].
  rewrite (upload_large_file_run _ _ _ _ _ Hf). cbv zeta. rewrite Hlen.
  fold file_size token P.
  rewrite (answer_ok _ _ _ _ Hs0 Hj0), He0. fold upload_id. rewrite Hu.
  cbn [negb].
  rewrite (upload_loop_accepted _ _ _ _ _ _ _ r1 p1);
    rewrite ?sent_token, ?sent_server, ?sent_log; fold token chunk0 chunk1 Q0;
    auto; try lia.
  2: { intros ->. cbn in Hlen. lia. }
  rewrite (upload_loop_accepted _ _ _ _ _ _ _ r2 p2);
    rewrite ?sent_token, ?sent_server, ?sent_log, <- ?app_assoc;
    rewrite ?take_ge by lia; fold token Q1; auto; try lia.
  2: { intros E. rewrite E in Hl1. cbn in Hl1. lia. }
  rewrite drop_ge by lia. rewrite upload_loop_eof.
  destruct (answer _ _) as [res w'] eqn:Ha.
  destruct (answer_frame _ _ _ _ Ha) as (_ & _ & Hlog & _).
  cbn [snd]. rewrite Hlog, !sent_log, !sent_token, <- !app_assoc.
  reflexivity.
Qed.

(** The second of three chunks refused: the run stops after three requests,
    chunk 2 and the finalize call are never sent. *)
Lemma second_of_three_refused local_path remote_path ondup content w
    r0 p0 r1 p1 r2 p2 :
  let token := access_token (self w) in
  let file_size := Z.of_nat (length content) in
  let upload_id := dict_get p0 "uploadid" (PStr EmptyString) in
  let chunk0 := take (Z.to_nat (4 * 1024 * 1024)) content in
  let chunk1 :=
    take (Z.to_nat (4 * 1024 * 1024))
      (drop (Z.to_nat (4 * 1024 * 1024)) content) in
  let P := precreate_request token remote_path file_size ondup in
  let Q0 := chunk_request token remote_path upload_id 0 chunk0 in
  let Q1 := chunk_request token remote_path upload_id 1 chunk1 in
  files w !! local_path = Some content ->
  2 * (4 * 1024 * 1024) < file_size <= 3 * (4 * 1024 * 1024) ->
  server w (log w) P = Reply r0 -> json r0 = Some p0 ->
  errno_nonzero p0 = false -> truthy upload_id = true ->
  server w (log w ++ [P]) Q0 = Reply r1 -> json r1 = Some p1 ->
  errno_nonzero p1 = false ->
  server w (log w ++ [P; Q0]) Q1 = Reply r2 -> json r2 = Some p2 ->
  errno_nonzero p2 = true ->
  fst (_upload_large_file local_path remote_path ondup w) = Ok p2
  /\ log (snd (_upload_large_file local_path remote_path ondup w))
     = log w ++ [P; Q0; Q1].
Proof.
  intros token file_size upload_id chunk0 chunk1 P Q0 Q1
    Hf Hlen Hs0 Hj0 He0 Hu Hs1 Hj1 He1 Hs2 Hj2 He2.
  rewrite (upload_large_file_run _ _ _ _ _ Hf). cbv zeta.
  fold file_size token P.
  rewrite (answer_ok _ _ _ _ Hs0 Hj0), He0. fold upload_id. rewrite Hu.
  cbn [negb].
  rewrite (upload_loop_accepted _ _ _ _ _ _ _ r1 p1);
    rewrite ?sent_token, ?sent_server, ?sent_log; fold token chunk0 Q0;
    auto; try lia.
  2: { intros ->. subst file_size. cbn in Hlen. lia. }
  rewrite (upload_loop_refused _ _ _ _ _ _ _ r2 p2);
    rewrite ?sent_token, ?sent_server, ?sent_log, <- ?app_assoc;
    fold token chunk1 Q1; auto; try lia.
  2: { intros E. apply (f_equal length) in E. rewrite length_drop in E.
       subst file_size. cbn in E. lia. }
  cbn [fst snd]. split; [reflexivity|].
  rewrite !sent_log, <- !app_assoc. reflexivity.
Qed.

End TwoChunks.

Lemma big_file_length : Z.of_nat (length big_file) = 4 * 1024 * 1024 + 1.
Proof. unfold big_file. rewrite repeat_length. lia. Qed.

Lemma two_chunks_witness :
  let w := demo_world demo_client session_opened {[ "big.bin" := big_file ]} in
  let chunk0 := take (Z.to_nat (4 * 1024 * 1024)) big_file in
  let chunk1 := drop (Z.to_nat (4 * 1024 * 1024)) big_file in
  let P := precreate_request (PStr "tok") "/big.bin" (4 * 1024 * 1024 + 1)
             "overwrite" in
  let Q0 := chunk_request (PStr "tok") "/big.bin" (PStr "u-1") 0 chunk0 in
  let Q1 := chunk_request (PStr "tok") "/big.bin" (PStr "u-1") 1 chunk1 in
  let F := finalize_request (PStr "tok") "/big.bin" (4 * 1024 * 1024 + 1)
             (PStr "u-1")
             [@md5_hex md5_hashlib chunk0; @md5_hex md5_hashlib chunk1]
             "overwrite" in
  files w !! "big.bin" = Some big_file
  /\ Z.of_nat (length big_file) = 4 * 1024 * 1024 + 1
  /\ big_file = chunk0 ++ chunk1
  /\ Z.of_nat (length chunk0) = 4194304
  /\ Z.of_nat (length chunk1) = 1
  /\ log (snd (@_upload_large_file md5_hashlib "big.bin" "/big.bin" "overwrite" w))
     = log w ++ [P; Q0; Q1; F].
Proof.
  intros w chunk0 chunk1 P Q0 Q1 F.
  assert (files w !! "big.bin" = Some big_file) as Hf
    by apply lookup_singleton_eq.
  split; [exact Hf|]. split; [exact big_file_length|].
  exact (@two_chunks md5_hashlib "big.bin" "/big.bin" "overwrite" big_file w
           (Response 200 (Some session_opened) (fun _ => [])) session_opened
           (Response 200 (Some session_opened) (fun _ => [])) session_opened
           (Response 200 (Some session_opened) (fun _ => [])) session_opened
           Hf big_file_length eq_refl eq_refl eq_refl eq_refl
           eq_refl eq_refl eq_refl eq_refl eq_refl eq_refl).
Defined.

(** ** A file of three chunks whose second chunk is refused *)

Lemma three_chunk_file_length :
  Z.of_nat (length three_chunk_file) = 2 * (4 * 1024 * 1024) + 1.
Proof. unfold three_chunk_file. rewrite repeat_length. lia. Qed.

Lemma three_chunk_file_size :
  2 * (4 * 1024 * 1024) < Z.of_nat (length three_chunk_file)
  <= 3 * (4 * 1024 * 1024).
Proof. rewrite three_chunk_file_length. lia. Qed.

Lemma three_chunk_file_third :
  (Z.to_nat (4 * 1024 * 1024) + Z.to_nat (4 * 1024 * 1024)
   < length three_chunk_file)%nat.
Proof. pose proof three_chunk_file_length. lia. Qed.

Lemma three_pieces {A} (l : list A) (n : nat) :
  l = take n l ++ take n (drop n l) ++ drop (n + n) l
  /\ ((n + n < length l)%nat -> drop (n + n) l <> []).
Proof.
  split.
  - rewrite <- drop_drop, !take_drop. reflexivity.
  - intros Hlt E. apply (f_equal length) in E. rewrite length_drop in E.
    cbn [length] in E. lia.
Qed.

Lemma pair_of_fst {A B} (x : A * B) (a : A) : fst x = a -> x = (a, snd x).
Proof. destruct x as [a' b]. cbn [fst snd]. now intros ->. Qed.

(** The run on a file of 8 MiB and one byte, the vendor refusing the chunk
    with index 1: the log ends with that chunk, the third chunk and the
    finalize call are never sent. *)
Lemma failed_chunk_is_last_witness :
  let w := second_refused_world {[ "big.bin" := three_chunk_file ]} in
  let run :=
    @_upload_large_file md5_hashlib "big.bin" "/big.bin" "overwrite" w in
  let n := Z.to_nat (4 * 1024 * 1024) in
  let chunk0 := take n three_chunk_file in
  let chunk1 := take n (drop n three_chunk_file) in
  let chunk2 := drop (n + n) three_chunk_file in
  let P := precreate_request (PStr "tok") "/big.bin"
             (Z.of_nat (length three_chunk_file)) "overwrite" in
  let Q0 := chunk_request (PStr "tok") "/big.bin" (PStr "u-1") 0 chunk0 in
  let Q1 := chunk_request (PStr "tok") "/big.bin" (PStr "u-1") 1 chunk1 in
  Z.of_nat (length three_chunk_file) = 2 * (4 * 1024 * 1024) + 1
  /\ three_chunk_file = chunk0 ++ chunk1 ++ chunk2
  /\ chunk2 <> []
  /\ log (snd run) = log w ++ [P; Q0] ++ Q1 :: []
  /\ is_chunk Q1 = true
  /\ server w (log w ++ [P; Q0]) Q1 = reply_with chunk_refused
  /\ errno_nonzero chunk_refused = true
  /\ fst run = Ok chunk_refused
  /\ forall q', q' ∈ [P; Q0] -> is_chunk q' = true ->
       exists i i', partseq Q1 = Some i /\ partseq q' = Some i' /\ i' < i.
Proof.
  intros w run n chunk0 chunk1 chunk2 P Q0 Q1.
  pose proof (@second_of_three_refused md5_hashlib "big.bin" "/big.bin"
                "overwrite" three_chunk_file w
                (Response 200 (Some session_opened) (fun _ => []))
                session_opened
                (Response 200 (Some session_opened) (fun _ => []))
                session_opened
                (Response 200 (Some chunk_refused) (fun _ => []))
                chunk_refused
                (lookup_singleton_eq _ _) three_chunk_file_size
                eq_refl eq_refl eq_refl eq_refl eq_refl eq_refl eq_refl
                eq_refl eq_refl eq_refl) as [Hres Hlog].
  pose proof (pair_of_fst _ _ Hres) as Hrun.
  destruct (@failed_chunk_is_last md5_hashlib "big.bin" "/big.bin" "overwrite"
              w (Ok chunk_refused) (snd run) [P; Q0] Q1 []
              (Response 200 (Some chunk_refused) (fun _ => [])) chunk_refused
              Hrun Hlog eq_refl eq_refl eq_refl eq_refl)
    as (_ & _ & Hidx).
  destruct (three_pieces three_chunk_file n) as [Hsplit Hthird].
  split; [exact three_chunk_file_length|].
  split; [exact Hsplit|]. split; [exact (Hthird three_chunk_file_third)|].
  split; [exact Hlog|].
  split; [reflexivity|]. split; [reflexivity|]. split; [reflexivity|].
  split; [exact Hres | exact Hidx].
Defined.

(** ** C1: the two upload paths *)

Lemma refresh_frame w :
  files (snd (refresh_access_token w)) = files w
  /\ server (snd (refresh_access_token w)) = server w
  /\ (log (snd (refresh_access_token w)) = log w
      \/ log (snd (refresh_access_token w)) = log w ++ [refresh_request (self w)]).
Proof.
  destruct (truthy (refresh_token (self w))) eqn:Hrt.
  2: { unfold refresh_access_token. run_M. rewrite Hrt. cbn. auto. }
  split; [|split; [|right; now apply refresh_log]].
  all: unfold refresh_access_token; run_M; rewrite Hrt; cbn [negb];
    destruct (_session (self w)); run_M;
    destruct (server w (log w) _) as [[st [p|] ic]|]; run_M; try reflexivity;
    cbn [json];
    destruct (p !! "access_token"); run_M; try reflexivity;
    destruct (p !! "refresh_token"); run_M;
    destruct (p !! "expires_in") as [[]|]; run_M; reflexivity.
Qed.

(** The token check touches no file and sends at most the refresh request. *)
Lemma check_token_frame w res w1 :
  _check_token w = (res, w1) ->
  files w1 = files w
  /\ server w1 = server w
  /\ (log w1 = log w \/ log w1 = log w ++ [refresh_request (self w)]).
Proof.
  unfold _check_token. run_M.
  destruct (negb (truthy (access_token (self w)))).
  { intros [= <- <-]. auto. }
  run_M. destruct (_ && _ && _).
  - pose proof (refresh_frame (with_ticks (S (ticks w)) w)) as Hfr.
    destruct (refresh_access_token _) as [[x|e] w2]; intros [= <- <-];
      exact Hfr.
  - intros [= <- <-]. auto.
Qed.

Section Paths.
Context `{Hashlib}.

(** The chunked path starts with the precreate call. *)
Lemma upload_large_file_log local_path remote_path ondup content w :
  files w !! local_path = Some content ->
  exists rest,
    log (snd (_upload_large_file local_path remote_path ondup w)) =
    log w ++ precreate_request (access_token (self w)) remote_path
               (Z.of_nat (length content)) ondup :: rest.
Proof.
  intros Hf. rewrite (upload_large_file_run _ _ _ _ _ Hf). cbv zeta.
  set (P := precreate_request _ _ _ _).
  destruct (answer P w) as [[p0|e] w1] eqn:Ha;
    destruct (answer_frame _ _ _ _ Ha) as (_ & _ & Hlog1 & _).
  2: { exists []. exact Hlog1. }
  destruct (errno_nonzero p0); [exists []; exact Hlog1|].
  destruct (negb (truthy _)); [exists []; exact Hlog1|].
  destruct (upload_loop _ _ _ _ _ _ w1) as [lres w2] eqn:Hloop.
  apply (upload_loop_trace _ _ _ (length content)) in Hloop; [|lia].
  destruct Hloop as (_ & _ & _ & new & Hlog2 & _).
  destruct lres as [[res0|bl]|e]; cbn [snd].
  - exists new. rewrite Hlog2, Hlog1, <- app_assoc. reflexivity.
  - destruct (answer _ w2) as [res3 w3] eqn:Ha3.
    destruct (answer_frame _ _ _ _ Ha3) as (_ & _ & Hlog3 & _).
    eexists (new ++ [_]). cbn [snd].
    rewrite Hlog3, Hlog2, Hlog1, <- !app_assoc. reflexivity.
  - exists new. rewrite Hlog2, Hlog1, <- app_assoc. reflexivity.
Qed.

(** C1, as the code has it: [upload_file] on an existing regular file first
    runs the token check, which sends at most one request, the token refresh.
    When the check passes, a file of at most 4,194,304 bytes goes to
    [_upload_small_file], which sends exactly one request, the direct upload
    (no precreate, chunk or finalize call); a file of more than 4,194,304
    bytes goes to [_upload_large_file], which starts with the precreate
    call. *)
Theorem upload_file_paths local_path remote_path ondup content w w1 :
  files w !! local_path = Some content ->
  _check_token w = (Ok tt, w1) ->
  (log w1 = log w \/ log w1 = log w ++ [refresh_request (self w)])
  /\ (Z.of_nat (length content) <= 4194304 ->
        upload_file local_path remote_path ondup w
          = _upload_small_file local_path remote_path ondup w1
        /\ log (snd (upload_file local_path remote_path ondup w))
           = log w1 ++ [small_upload_request (access_token (self w1))
                          remote_path ondup content]
        /\ is_chunked_protocol
             (small_upload_request (access_token (self w1)) remote_path ondup
                content) = false)
  /\ (4194304 < Z.of_nat (length content) ->
        upload_file local_path remote_path ondup w
          = _upload_large_file local_path remote_path ondup w1
        /\ exists rest,
             log (snd (upload_file local_path remote_path ondup w))
             = log w1 ++ precreate_request (access_token (self w1)) remote_path
                           (Z.of_nat (length content)) ondup :: rest).
Proof.
  intros Hf Hc.
  destruct (check_token_frame _ _ _ Hc) as (Hfiles & _ & Hlog).
  assert (Hf1 : files w1 !! local_path = Some content) by now rewrite Hfiles.
  assert (forall b,
            (4 * 1024 * 1024 <? Z.of_nat (length content)) = b ->
            upload_file local_path remote_path ondup w =
            if b then _upload_large_file local_path remote_path ondup w1
            else _upload_small_file local_path remote_path ondup w1) as Hsel.
  { intros b Hb. unfold upload_file. unfold bind at 1. rewrite Hc.
    unfold bind at 1. unfold isfile, gets. rewrite Hf1.
    rewrite bool_decide_eq_true_2 by eauto. cbn [negb].
    unfold bind at 1. unfold getsize. rewrite Hf1, Hb. now destruct b. }
  split; [exact Hlog|]. split.
  - intros Hle. rewrite (Hsel false) by (apply Z.ltb_ge; lia).
    split; [reflexivity|].
    rewrite (upload_small_file_answer _ _ _ _ _ Hf1).
    destruct (answer _ w1) as [res w2] eqn:Ha.
    destruct (answer_frame _ _ _ _ Ha) as (_ & _ & Hlog2 & _).
    split; [exact Hlog2 | reflexivity].
  - intros Hgt. rewrite (Hsel true) by (apply Z.ltb_lt; lia).
    split; [reflexivity|]. now apply upload_large_file_log.
Qed.

End Paths.

Lemma upload_file_paths_witness :
  let w := demo_world demo_client session_opened {[ "a.txt" := hundred_bytes ]} in
  let w1 := with_ticks 1 w in
  files w !! "a.txt" = Some hundred_bytes
  /\ _check_token w = (Ok tt, w1)
  /\ Z.of_nat (length hundred_bytes) = 100
  /\ log (snd (@upload_file md5_hashlib "a.txt" "/a.txt" "overwrite" w))
     = log w1 ++ [small_upload_request (PStr "tok") "/a.txt" "overwrite"
                    hundred_bytes].
Proof.
  intros w w1.
  assert (files w !! "a.txt" = Some hundred_bytes) as Hf by reflexivity.
  assert (_check_token w = (Ok tt, w1)) as Hc by reflexivity.
  destruct (@upload_file_paths md5_hashlib "a.txt" "/a.txt" "overwrite"
              hundred_bytes w w1 Hf Hc) as (_ & Hsmall & _).
  split; [exact Hf|]. split; [exact Hc|]. split; [reflexivity|].
  apply Hsmall. vm_compute. discriminate.
Defined.

(** C1 read as exactly one request does not hold: with a token about to
    expire, the upload of a 100-byte file sends two requests, the token
    refresh and then the direct upload. *)
Lemma small_upload_after_refresh :
  let w := demo_world expiring_client session_opened
             {[ "a.txt" := hundred_bytes ]} in
  length hundred_bytes = 100%nat
  /\ log w = []
  /\ log (snd (@upload_file md5_hashlib "a.txt" "/a.txt" "overwrite" w))
     = [refresh_request expiring_client;
        small_upload_request (PStr "tok") "/a.txt" "overwrite" hundred_bytes]
  /\ length (log (snd (@upload_file md5_hashlib "a.txt" "/a.txt" "overwrite" w)))
     <> 1%nat.
Proof.
  intros w.
  assert (log (snd (@upload_file md5_hashlib "a.txt" "/a.txt" "overwrite" w))
     = [refresh_request expiring_client;
        small_upload_request (PStr "tok") "/a.txt" "overwrite" hundred_bytes])
    as Hlog by (vm_compute; reflexivity).
  split; [reflexivity|]. split; [reflexivity|]. split; [exact Hlog|].
  rewrite Hlog. discriminate.
Qed.

(** ** C7: download *)

(** The writing loop on a file that holds [old]: the file ends up holding
    [old] followed by a prefix [kept] of the chunks received, all of them
    when no write fails, and nothing else changes. *)
Lemma write_chunks_run local_path body :
  forall w old,
  files w !! local_path = Some old ->
  exists res w' kept,
    write_chunks local_path body w = (res, w')
    /\ files w' = <[local_path := old ++ kept]> (files w)
    /\ fs_fault w' = fs_fault w
    /\ log w' = log w
    /\ kept `prefix_of` written body
    /\ (res = Ok tt -> complete body = true /\ kept = written body)
    /\ ((forall pos, fs_fault w (Write local_path pos) = false) ->
        kept = written body
        /\ res = if complete body then Ok tt else Raise RequestException).
Proof.
  induction body as [|[chunk|] body IH]; intros w old Hold; cbn [write_chunks].
  - exists (Ok tt), w, []. cbn [written complete]. rewrite app_nil_r.
    rewrite insert_id by exact Hold.
    split; [reflexivity|]. split; [reflexivity|]. split; [reflexivity|].
    split; [reflexivity|]. split; [reflexivity|]. split; auto.
  - assert (forall w0 old0, files w0 !! local_path = Some old0 ->
              files w0 = <[local_path := old0]> (files w) ->
              fs_fault w0 = fs_fault w -> log w0 = log w ->
              old0 = old ++ chunk ->
              exists res w' kept,
                write_chunks local_path body w0 = (res, w')
                /\ files w' = <[local_path := old ++ kept]> (files w)
                /\ fs_fault w' = fs_fault w
                /\ log w' = log w
                /\ kept `prefix_of` written (Some chunk :: body)
                /\ (res = Ok tt ->
                    complete (Some chunk :: body) = true
                    /\ kept = written (Some chunk :: body))
                /\ ((forall pos, fs_fault w (Write local_path pos) = false) ->
                    kept = written (Some chunk :: body)
                    /\ res = if complete (Some chunk :: body) then Ok tt
                             else Raise RequestException)) as Hnext.
    { intros w0 old0 Hold0 Hf0 Hfault0 Hlog0 ->.
      destruct (IH w0 _ Hold0) as (res & w' & kept & Hrun & Hf & Hfl & Hl & Hp
                                   & Hok & Hall).
      exists res, w', (chunk ++ kept). cbn [written complete].
      split; [exact Hrun|]. split.
      { rewrite Hf, Hf0, insert_insert_eq, <- app_assoc. reflexivity. }
      split; [congruence|]. split; [congruence|].
      split; [now apply prefix_app|]. split.
      - intros Hres. destruct (Hok Hres) as [Hc ->]. auto.
      - intros Hno. destruct Hall as [-> Hres].
        { intros pos. rewrite Hfault0. apply Hno. }
        auto. }
    destruct chunk as [|b chunk].
    + unfold bind, ret. apply (Hnext w old Hold); auto.
      * now rewrite insert_id.
      * now rewrite app_nil_r.
    + unfold bind at 1. unfold f_write. rewrite Hold. cbn [default].
      destruct (fs_fault w (Write local_path _)) eqn:Hw.
      * exists (Raise OSError), w, []. split; [reflexivity|].
        rewrite app_nil_r, insert_id by exact Hold.
        split; [reflexivity|]. split; [reflexivity|]. split; [reflexivity|].
        split; [apply prefix_nil|]. split; [discriminate|].
        intros Hno. rewrite Hno in Hw. discriminate Hw.
      * apply (Hnext _ (old ++ b :: chunk)); auto.
        -- cbn [files with_files]. rewrite lookup_alter_eq, Hold. reflexivity.
        -- cbn [files with_files]. apply map_eq. intros path.
           destruct (decide (path = local_path)) as [->|Hne].
           ++ rewrite lookup_alter_eq, lookup_insert_eq, Hold. reflexivity.
           ++ rewrite lookup_alter_ne, lookup_insert_ne by congruence.
              reflexivity.
  - exists (Raise RequestException), w, []. cbn [written complete].
    rewrite app_nil_r, insert_id by exact Hold.
    split; [reflexivity|]. split; [reflexivity|]. split; [reflexivity|].
    split; [reflexivity|]. split; [reflexivity|]. split; [discriminate|].
    auto.
Qed.

Lemma get_download_link_files file_path w :
  files (snd (get_download_link file_path w)) = files w.
Proof.
  unfold get_download_link. unfold bind at 1.
  destruct (_check_token w) as [[[]|e] w0] eqn:Hc;
    destruct (check_token_frame _ _ _ Hc) as (Hfiles & _ & _);
    [|exact Hfiles].
  rewrite <- Hfiles. run_M.
  destruct (_session (self w0)); run_M;
    destruct (server w0 (log w0) _) as [[st [p|] ic]|]; run_M;
    cbn [status_code json];
    repeat match goal with
    | |- context [if ?c then _ else _] => destruct c
    end; reflexivity.
Qed.

(** What a link that [get_download_link] returns comes from: the token
    check passed, and the link request was answered. *)
Lemma get_download_link_ok file_path w link w1 :
  get_download_link file_path w = (Ok link, w1) ->
  exists w0 r,
    _check_token w = (Ok tt, w0)
    /\ server w (log w0) (link_request (access_token (self w0)) file_path)
       = Reply r
    /\ log w1 = log w0 ++ [link_request (access_token (self w0)) file_path]
    /\ (status_code r <> 200 -> link = PStr EmptyString)
    /\ (status_code r = 200 ->
        exists p, json r = Some p
                  /\ link = dict_get p "dlink" (PStr EmptyString)).
Proof.
  unfold get_download_link. unfold bind at 1.
  destruct (_check_token w) as [[[]|e] w0] eqn:Hc; [|discriminate].
  destruct (check_token_frame _ _ _ Hc) as (_ & Hsrv & _).
  intros Hrun. exists w0. rewrite <- Hsrv.
  unfold link_request. revert Hrun. unfold token_param. run_M.
  destruct (_session (self w0)); run_M;
    destruct (server w0 (log w0) _) as [[st [p|] ic]|]; run_M;
    cbn [status_code json]; try discriminate;
    destruct (Z.eqb_spec st 200); run_M; intros [= <- <-];
    eexists; (split; [reflexivity|]); (split; [reflexivity|]);
    (split; [reflexivity|]); cbn [status_code json];
    (split; [intros; congruence|]); intros; try congruence; eauto.
Qed.

Lemma download_file_after_link file_path local_path chunk_size w res w1 :
  get_download_link file_path w = (res, w1) ->
  download_file file_path local_path chunk_size w =
  match res with
  | Ok link => download_from link local_path chunk_size w1
  | Raise e => (Raise e, w1)
  end.
Proof.
  intros Hlink. unfold download_file, download_from. unfold bind at 1.
  rewrite Hlink. now destruct res.
Qed.

Lemma stream_opened_inv link w1 local_path r :
  stream_opened link w1 local_path = Some r ->
  exists u,
    link = PStr u /\ truthy link = true
    /\ http_link u = true /\ url_ok w1 u = true
    /\ server w1 (log w1) (stream_request u) = Reply r
    /\ status_code r = 200
    /\ fs_fault w1 (Makedirs local_path) = false
    /\ fs_fault w1 (OpenWrite local_path) = false.
Proof.
  unfold stream_opened. destruct link as [| | |u| |]; try discriminate.
  destruct (truthy (PStr u)) eqn:Ht; [|discriminate].
  destruct (http_link u) eqn:Hh; [|discriminate].
  destruct (url_ok w1 u) eqn:Hu; [|discriminate]. cbn [andb].
  destruct (server w1 (log w1) _) as [r0|] eqn:Hs; [|discriminate].
  destruct (Z.eqb_spec (status_code r0) 200) as [Hst|]; [|discriminate].
  destruct (fs_fault w1 (Makedirs local_path)) eqn:Hm; [discriminate|].
  destruct (fs_fault w1 (OpenWrite local_path)) eqn:Ho; [discriminate|].
  cbn [negb andb]. intros [= <-]. exists u. auto 10.
Qed.

Lemma stream_opened_intro u w1 local_path r :
  truthy (PStr u) = true ->
  http_link u = true -> url_ok w1 u = true ->
  server w1 (log w1) (stream_request u) = Reply r ->
  status_code r = 200 ->
  fs_fault w1 (Makedirs local_path) = false ->
  fs_fault w1 (OpenWrite local_path) = false ->
  stream_opened (PStr u) w1 local_path = Some r.
Proof.
  intros Ht Hh Hu Hs Hst Hm Ho. unfold stream_opened.
  rewrite Ht, Hh, Hu, Hs, Hst, Hm, Ho. reflexivity.
Qed.

(** [download_file] once the link is known, case by case. *)
Lemma download_from_cases link local_path chunk_size w1 :
  exists b w2,
    download_from link local_path chunk_size w1 = (Ok b, w2)
    /\ match stream_opened link w1 local_path with
       | Some r =>
         exists kept,
           files w2 = <[local_path := kept]> (files w1)
           /\ kept `prefix_of` written (iter_content r chunk_size)
           /\ (b = true ->
               complete (iter_content r chunk_size) = true
               /\ kept = written (iter_content r chunk_size)
               /\ fs_fault w1 (Close local_path) = false)
           /\ ((forall pos, fs_fault w1 (Write local_path pos) = false) ->
               fs_fault w1 (Close local_path) = false ->
               kept = written (iter_content r chunk_size)
               /\ b = complete (iter_content r chunk_size))
       | None =>
         b = false /\ files w2 = files w1
         /\ (truthy link = false -> log w2 = log w1)
       end.
Proof.
  unfold download_from.
  destruct (truthy link) eqn:Ht; cbn [negb].
  2: { assert (stream_opened link w1 local_path = None) as ->
         by (unfold stream_opened; rewrite Ht; now destruct link).
       exists false, w1. auto. }
  unfold bind at 1. rewrite get_session_run.
  destruct (touch_session_frame w1) as (_ & Hsrv & Hlog & Hfiles).
  assert (fs_fault (touch_session w1) = fs_fault w1) as Hfault
    by (unfold touch_session; now destruct (_session (self w1))).
  assert (url_ok (touch_session w1) = url_ok w1) as Hurl
    by (unfold touch_session; now destruct (_session (self w1))).
  set (ws := touch_session w1) in *.
  unfold try_except, get_stream.
  destruct link as [| | |u| |];
    try (exists false, ws; split; [reflexivity|]; cbn [stream_opened];
         split; [reflexivity|]; split; [exact Hfiles | discriminate]).
  unfold stream_opened. rewrite Ht. cbn [andb].
  unfold bind at 1. unfold bind at 1. unfold gets. rewrite Hurl.
  destruct (http_link u && url_ok w1 u).
  2: { exists false, ws. split; [reflexivity|]. split; [reflexivity|].
       split; [exact Hfiles | discriminate]. }
  unfold send. rewrite Hsrv, Hlog. fold (stream_request u).
  set (wl := with_log _ ws).
  assert (files wl = files w1) as Hfl by exact Hfiles.
  assert (fs_fault wl = fs_fault w1) as Hfault' by exact Hfault.
  destruct (server w1 (log w1) (stream_request u)) as [r|].
  2: { exists false, wl. split; [reflexivity|]. split; [reflexivity|].
       split; [exact Hfl | discriminate]. }
  destruct (status_code r =? 200); cbn [negb andb].
  2: { exists false, wl. split; [reflexivity|]. split; [reflexivity|].
       split; [exact Hfl | discriminate]. }
  unfold bind at 1. unfold makedirs_parent. rewrite Hfault'.
  destruct (fs_fault w1 (Makedirs local_path)); cbn [negb andb].
  { exists false, wl. split; [reflexivity|]. split; [reflexivity|].
    split; [exact Hfl | discriminate]. }
  unfold bind at 1. unfold open_wb. rewrite Hfault'.
  destruct (fs_fault w1 (OpenWrite local_path)); cbn [negb andb].
  { exists false, wl. split; [reflexivity|]. split; [reflexivity|].
    split; [exact Hfl | discriminate]. }
  set (wo := with_files _ wl).
  assert (files wo !! local_path = Some []) as Hnew
    by (subst wo; cbn [files with_files]; apply lookup_insert_eq).
  destruct (write_chunks_run local_path (iter_content r chunk_size) wo [] Hnew)
    as (res & w2 & kept & Hrun & Hf2 & Hfault2 & _ & Hpre & Hok & Hall).
  cbn [app] in Hf2.
  assert (fs_fault wo = fs_fault w1) as Hfo by exact Hfault'.
  rewrite Hfo in Hall, Hfault2.
  assert (files w2 = <[local_path := kept]> (files w1)) as Hfiles2.
  { rewrite Hf2. subst wo. cbn [files with_files]. rewrite Hfl.
    apply insert_insert_eq. }
  unfold bind at 1. unfold closing, f_close. rewrite Hrun, Hfault2.
  destruct res as [[]|e]; destruct (fs_fault w1 (Close local_path)) eqn:Hcl;
    unfold ret.
  - exists false, w2. split; [reflexivity|]. exists kept.
    split; [exact Hfiles2|]. split; [exact Hpre|]. split; discriminate.
  - exists true, w2. split; [reflexivity|]. exists kept.
    destruct (Hok eq_refl) as [Hc Hk].
    split; [exact Hfiles2|]. split; [exact Hpre|]. split; [auto|].
    intros _ _. split; [exact Hk|]. now rewrite Hc.
  - exists false, w2. split; [reflexivity|]. exists kept.
    split; [exact Hfiles2|]. split; [exact Hpre|]. split; discriminate.
  - exists false, w2. split; [reflexivity|]. exists kept.
    split; [exact Hfiles2|]. split; [exact Hpre|]. split; [discriminate|].
    intros Hno _. destruct (Hall Hno) as [Hk Hres].
    split; [exact Hk|].
    destruct (complete (iter_content r chunk_size)); [discriminate Hres|].
    reflexivity.
Qed.

Lemma download_file_cases file_path local_path chunk_size w link w1 :
  get_download_link file_path w = (Ok link, w1) ->
  exists b w2,
    download_file file_path local_path chunk_size w = (Ok b, w2)
    /\ match stream_opened link w1 local_path with
       | Some r =>
         exists kept,
           files w2 = <[local_path := kept]> (files w)
           /\ kept `prefix_of` written (iter_content r chunk_size)
           /\ (b = true ->
               complete (iter_content r chunk_size) = true
               /\ kept = written (iter_content r chunk_size)
               /\ fs_fault w1 (Close local_path) = false)
           /\ ((forall pos, fs_fault w1 (Write local_path pos) = false) ->
               fs_fault w1 (Close local_path) = false ->
               kept = written (iter_content r chunk_size)
               /\ b = complete (iter_content r chunk_size))
       | None =>
         b = false /\ files w2 = files w
         /\ (truthy link = false -> log w2 = log w1)
       end.
Proof.
  intros Hlink.
  pose proof (get_download_link_files file_path w) as Hfiles.
  rewrite Hlink in Hfiles. cbn [snd] in Hfiles.
  rewrite (download_file_after_link _ local_path chunk_size _ _ _ Hlink).
  rewrite <- Hfiles. apply download_from_cases.
Qed.

(** C7, as the code has it.  [get_download_link] runs before the [try]
    block, so whatever it raises (the missing-token error of the token
    check, a transport failure of the link request, an answer to it that is
    not JSON) is raised by [download_file] as well.  Once it has returned,
    whatever the link, [download_file] returns a boolean and raises nothing,
    and every local file that existed still exists.  It returns [True] only
    if the link is a non-empty string that [requests] takes for a URL, the
    streaming request is answered with status 200, the directory and the
    file can be created, the body is read to its end and the file can be
    closed; so an empty or unusable link, a transport failure of the
    streaming request, a non-200 status, a failure to create the directory
    or to open the file, and an exception in the middle of the stream all
    give [False], and so does a status other than 200 of the link request.
    When the stream has been opened, the local file is left holding a prefix
    of the data received, and with no failing write or close exactly the
    chunks received before the stream ended or broke: a partial file is not
    removed. *)
Theorem download_file_result file_path local_path chunk_size w res w1 :
  get_download_link file_path w = (res, w1) ->
  match res with
  | Raise e =>
    download_file file_path local_path chunk_size w = (Raise e, w1)
  | Ok link =>
    exists b w2,
      download_file file_path local_path chunk_size w = (Ok b, w2)
      /\ (forall path, is_Some (files w !! path) -> is_Some (files w2 !! path))
      /\ (exists w0 r0,
            _check_token w = (Ok tt, w0)
            /\ server w (log w0)
                 (link_request (access_token (self w0)) file_path) = Reply r0
            /\ (status_code r0 <> 200 -> b = false))
      /\ (b = true ->
            exists u r,
              link = PStr u /\ truthy link = true
              /\ http_link u = true /\ url_ok w1 u = true
              /\ server w1 (log w1) (stream_request u) = Reply r
              /\ status_code r = 200
              /\ fs_fault w1 (Makedirs local_path) = false
              /\ fs_fault w1 (OpenWrite local_path) = false
              /\ complete (iter_content r chunk_size) = true
              /\ fs_fault w1 (Close local_path) = false
              /\ files w2 !! local_path
                 = Some (written (iter_content r chunk_size)))
      /\ (forall u r,
            link = PStr u -> truthy link = true ->
            http_link u = true -> url_ok w1 u = true ->
            server w1 (log w1) (stream_request u) = Reply r ->
            status_code r = 200 ->
            fs_fault w1 (Makedirs local_path) = false ->
            fs_fault w1 (OpenWrite local_path) = false ->
            exists kept,
              files w2 !! local_path = Some kept
              /\ kept `prefix_of` written (iter_content r chunk_size)
              /\ ((forall pos, fs_fault w1 (Write local_path pos) = false) ->
                  fs_fault w1 (Close local_path) = false ->
                  kept = written (iter_content r chunk_size)
                  /\ b = complete (iter_content r chunk_size)))
  end.
Proof.
  intros Hlink. destruct res as [link|e].
  2: { now rewrite (download_file_after_link _ local_path chunk_size _ _ _
                      Hlink). }
  destruct (download_file_cases file_path local_path chunk_size w link w1 Hlink)
    as (b & w2 & Hrun & Hcases).
  exists b, w2. split; [exact Hrun|].
  destruct (get_download_link_ok _ _ _ _ Hlink)
    as (w0 & r0 & Hcheck & Hs0 & _ & Hbad & _).
  destruct (stream_opened link w1 local_path) as [r|] eqn:Hopen.
  - destruct Hcases as (kept & Hf & Hpre & Htrue & Hall).
    destruct (stream_opened_inv _ _ _ _ Hopen)
      as (u & -> & Ht & Hh & Hu & Hs & Hst & Hm & Ho).
    assert (files w2 !! local_path = Some kept) as Hkept
      by (rewrite Hf; apply lookup_insert_eq).
    split; [|split; [|split]].
    + intros path Hp. rewrite Hf.
      destruct (decide (path = local_path)) as [->|Hne].
      * rewrite lookup_insert_eq. eauto.
      * now rewrite lookup_insert_ne by congruence.
    + exists w0, r0. split; [exact Hcheck|]. split; [exact Hs0|].
      intros Hst0. rewrite (Hbad Hst0) in Ht. discriminate Ht.
    + intros Hb. destruct (Htrue Hb) as (Hc & Hk & Hcl).
      exists u, r. rewrite <- Hk. auto 15.
    + intros u0 r1 [= <-] _ _ _ Hs1 _ _ _. rewrite Hs in Hs1.
      injection Hs1 as <-. exists kept. auto.
  - destruct Hcases as (-> & Hf & _). split; [|split; [|split]].
    + intros path. now rewrite Hf.
    + exists w0, r0. auto.
    + discriminate.
    + intros u r -> Ht Hh Hu Hs Hst Hm Ho.
      rewrite (stream_opened_intro _ _ _ _ Ht Hh Hu Hs Hst Hm Ho) in Hopen.
      discriminate Hopen.
Qed.

(** C7 read as no exception reaching the caller does not hold: with a token
    set and a link request that fails in transport, the call raises, the
    link being resolved outside the [try] block. *)
Lemma download_link_unreachable :
  fst (download_file "/r.bin" "l.bin" (1024 * 1024)
         (dead_world demo_client ∅))
  = Raise RequestException.
Proof. reflexivity. Qed.

(** Without an access token the call raises as every gated operation does. *)
Example download_without_token :
  fst (download_file "/r.bin" "l.bin" (1024 * 1024)
         (demo_world (set_access_token PNone demo_client) ∅ ∅))
  = Raise no_access_token.
Proof. reflexivity. Qed.

(** A stream that breaks after two bytes: the call returns [False] and the
    two bytes stay on disk. *)
Example download_broken_stream :
  let run := download_file "/r.bin" "l.bin" (1024 * 1024) broken_stream_world in
  fst run = Ok false
  /\ files (snd run) !! "l.bin" = Some [x61; x62]
  /\ log (snd run) =
     [link_request (PStr "tok") "/r.bin"; stream_request "http://d/x"].
Proof. vm_compute. repeat split. Qed.

(** A link without scheme: [requests] refuses it, nothing is sent for it
    and the local file keeps its content, although the vendor would answer
    any request with status 200. *)
Example download_link_without_scheme :
  let w := demo_world demo_client {[ "dlink" := PStr "d/x" ]}
             {[ "l.bin" := hundred_bytes ]} in
  let run := download_file "/r.bin" "l.bin" (1024 * 1024) w in
  fst run = Ok false
  /\ files (snd run) = files w
  /\ log (snd run) = [link_request (PStr "tok") "/r.bin"].
Proof. vm_compute. repeat split. Qed.

(** A link request answered with status 404: [False], one request, and
    the local file keeps its content. *)
Example download_link_not_found :
  let w := MkWorld demo_client (fun _ => 2000) 0
             (fun _ _ => Reply (Response 404 None (fun _ => []))) []
             {[ "l.bin" := hundred_bytes ]} (fun _ => false) (fun _ => true) in
  let run := download_file "/gone" "l.bin" (1024 * 1024) w in
  fst run = Ok false
  /\ files (snd run) = files w
  /\ log (snd run) = [link_request (PStr "tok") "/gone"].
Proof. vm_compute. repeat split. Qed.

(** A disk that is full after two bytes: the second write fails, the call
    returns [False] and the two bytes stay on disk. *)
Example download_disk_full :
  let run := download_file "/r.bin" "l.bin" (1024 * 1024) full_disk_world in
  fst run = Ok false
  /\ files (snd run) !! "l.bin" = Some [x61; x62].
Proof. vm_compute. repeat split. Qed.

Lemma download_file_result_witness :
  exists b w2,
    download_file "/r.bin" "l.bin" (1024 * 1024) broken_stream_world
      = (Ok b, w2)
    /\ b = false
    /\ files w2 !! "l.bin" = Some [x61; x62].
Proof.
  destruct (download_file_result "/r.bin" "l.bin" (1024 * 1024)
              broken_stream_world (Ok (PStr "http://d/x"))
              (snd (get_download_link "/r.bin" broken_stream_world))
              eq_refl)
    as (b & w2 & Hrun & _ & _ & _ & Hstream).
  destruct (Hstream "http://d/x"
              (Response 200 None (fun _ => [Some [x61; x62]; None]))
              eq_refl eq_refl eq_refl eq_refl eq_refl eq_refl eq_refl eq_refl)
    as (kept & Hf & _ & Hall).
  destruct (Hall (fun _ => eq_refl) eq_refl) as [Hk Hb].
  exists b, w2. split; [exact Hrun|]. split; [exact Hb|].
  rewrite Hf, Hk. reflexivity.
Defined.

(** * Further properties *)

(** ** Tokens *)

Lemma refresh_token_unset w :
  truthy (refresh_token (self w)) = false ->
  refresh_access_token w = (Raise no_refresh_token, w).
Proof.
  intros Hrt. unfold refresh_access_token. run_M. rewrite Hrt. reflexivity.
Qed.

(** A token check that has nothing to do: it reads the clock and returns. *)
Lemma check_token_quiet w :
  truthy (access_token (self w)) = true ->
  refresh_due w = false ->
  _check_token w = (Ok tt, with_ticks (S (ticks w)) w).
Proof.
  unfold refresh_due. intros Hat Hdue. unfold _check_token. run_M.
  rewrite Hat. cbn [negb]. run_M. rewrite Hdue. reflexivity.
Qed.

Lemma check_token_due w :
  truthy (access_token (self w)) = true ->
  refresh_due w = true ->
  _check_token w =
  match refresh_access_token (with_ticks (S (ticks w)) w) with
  | (Ok _, w') => (Ok tt, w')
  | (Raise e, w') => (Raise e, w')
  end.
Proof.
  unfold refresh_due. intros Hat Hdue. unfold _check_token. run_M.
  rewrite Hat. cbn [negb]. run_M. rewrite Hdue.
  destruct (refresh_access_token _) as [[x|e] w']; reflexivity.
Qed.

(** ** The pass-through operations *)

Lemma send_json_run mk w :
  (forall c, mk (set_session true c) = mk c) ->
  send_json mk w = answer (mk (self w)) w.
Proof.
  intros Hmk. unfold send_json, answer, sent, touch_session. run_M.
  destruct (_session (self w)); run_M; rewrite ?Hmk;
    destruct (server w (log w) _) as [[? [?|] ?]|]; reflexivity.
Qed.

Ltac fold_send_json w1 :=
  unfold session_get, session_post;
  match goal with
  | |- context [bind _get_session ?f w1] =>
    match f with
    | (fun _ => bind (gets self) (fun c => bind (send (@?mk c)) _)) =>
      let E := fresh "E" in
      assert (E : bind _get_session f w1 = answer (mk (self w1)) w1)
        by exact (send_json_run mk w1 (fun c => eq_refl));
      rewrite E; clear E
    end
  end.

Lemma passthrough_run `{Hashlib} c w w1 :
  is_passthrough c = true ->
  _check_token w = (Ok tt, w1) ->
  exists req,
    assoc "access_token" (params req) = Some (Val (access_token (self w1)))
    /\ exec c w = as_dict (answer req w1).
Proof.
  intros Hp Hc.
  destruct c; try discriminate Hp; cbn [exec]; unfold returning;
    unfold bind at 1;
    unfold get_user_info, get_quota, list_files, search_files, get_file_info,
      create_directory, delete_files, rename_file, move_files, copy_files,
      create_share, list_shares, cancel_share;
    unfold bind at 1; rewrite Hc; cbv beta iota; fold_send_json w1;
    eexists; (split; [|reflexivity]); reflexivity.
Qed.

Lemma passthrough_quiet `{Hashlib} c w :
  is_passthrough c = true ->
  truthy (access_token (self w)) = true ->
  refresh_due w = false ->
  exists req,
    assoc "access_token" (params req) = Some (Val (access_token (self w)))
    /\ exec c w = as_dict (answer req (with_ticks (S (ticks w)) w)).
Proof.
  intros Hp Hat Hdue.
  exact (passthrough_run c w _ Hp (check_token_quiet w Hat Hdue)).
Qed.

Lemma as_dict_answer req w :
  log (snd (as_dict (answer req w))) = log w ++ [req]
  /\ (forall r p, server w (log w) req = Reply r -> json r = Some p ->
        fst (as_dict (answer req w)) = Ok (RDict p))
  /\ (server w (log w) req = Fault ->
        fst (as_dict (answer req w)) = Raise RequestException)
  /\ (forall r, server w (log w) req = Reply r -> json r = None ->
        fst (as_dict (answer req w)) = Raise JSONDecodeError).
Proof.
  unfold answer.
  destruct (server w (log w) req) as [[st [p|] ic]|]; cbn [json as_dict fst snd];
    (split; [apply sent_log|]); repeat split; intros; simplify_eq/=;
    congruence.
Qed.

(** X1 ([get_user_info] ... [cancel_share]).  Each of the thirteen
    operations that pass one request through, called with a token set and no
    refresh due (expiry unknown, or more than 60 seconds away, or
    auto-refresh off), sends exactly one request, carrying the stored token
    as the query parameter [access_token].  The vendor's JSON object is
    returned as it is, whatever its [errno]; a transport failure and an
    answer that is not JSON are raised to the caller. *)
Theorem passthrough_one_request `{Hashlib} c w :
  is_passthrough c = true ->
  truthy (access_token (self w)) = true ->
  refresh_due w = false ->
  exists req,
    assoc "access_token" (params req) = Some (Val (access_token (self w)))
    /\ log (snd (exec c w)) = log w ++ [req]
    /\ (forall r p, server w (log w) req = Reply r -> json r = Some p ->
          fst (exec c w) = Ok (RDict p))
    /\ (server w (log w) req = Fault -> fst (exec c w) = Raise RequestException)
    /\ (forall r, server w (log w) req = Reply r -> json r = None ->
          fst (exec c w) = Raise JSONDecodeError).
Proof.
  intros Hp Hat Hdue.
  destruct (passthrough_quiet c w Hp Hat Hdue) as (req & Htok & ->).
  exists req. split; [exact Htok|].
  exact (as_dict_answer req (with_ticks (S (ticks w)) w)).
Qed.

Lemma passthrough_one_request_witness :
  let w := demo_world demo_client chunk_refused ∅ in
  exists req,
    assoc "access_token" (params req) = Some (Val (PStr "tok"))
    /\ log (snd (@exec md5_hashlib (DeleteFiles ["/a"; "/b"]) w)) = log w ++ [req]
    /\ (forall r p, server w (log w) req = Reply r -> json r = Some p ->
          fst (@exec md5_hashlib (DeleteFiles ["/a"; "/b"]) w) = Ok (RDict p))
    /\ (server w (log w) req = Fault ->
          fst (@exec md5_hashlib (DeleteFiles ["/a"; "/b"]) w)
          = Raise RequestException)
    /\ (forall r, server w (log w) req = Reply r -> json r = None ->
          fst (@exec md5_hashlib (DeleteFiles ["/a"; "/b"]) w)
          = Raise JSONDecodeError).
Proof.
  intros w.
  apply (@passthrough_one_request md5_hashlib (DeleteFiles ["/a"; "/b"]) w);
    reflexivity.
Defined.

(** A vendor error is a return value: [delete_files] answered with
    [errno] 31299 returns that object. *)
Example delete_files_refused :
  let run := delete_files ["/a"; "/b"] (demo_world demo_client chunk_refused ∅) in
  fst run = Ok chunk_refused
  /\ log (snd run) =
     [Request POST
        "https://pan.baidu.com/rest/2.0/xpan/file?method=filemanager&opera=delete"
        [("access_token", Val (PStr "tok"))]
        [("filelist", JsonDumps (PList [PStr "/a"; PStr "/b"]))] None false].
Proof. vm_compute. split; reflexivity. Qed.

(** X2 ([__init__]).  A client as [__init__] builds it has an unknown expiry:
    with a token set, each pass-through operation sends exactly one request
    and no token refresh, whatever the clock reads and whether or not
    auto-refresh is on. *)
Theorem fresh_client_one_request `{Hashlib} ak sk at' rt ar c w :
  self w = __init__ ak sk at' rt ar ->
  truthy at' = true ->
  is_passthrough c = true ->
  exists req,
    assoc "access_token" (params req) = Some (Val at')
    /\ log (snd (exec c w)) = log w ++ [req].
Proof.
  intros Hself Hat Hp.
  assert (access_token (self w) = at') as Htok by now rewrite Hself.
  assert (refresh_due w = false) as Hdue
    by (unfold refresh_due; now rewrite Hself).
  rewrite <- Htok in Hat.
  destruct (passthrough_quiet c w Hp Hat Hdue) as (req & Hreq & ->).
  exists req. rewrite <- Htok. split; [exact Hreq|].
  now destruct (as_dict_answer req (with_ticks (S (ticks w)) w)) as [-> _].
Qed.

Lemma fresh_client_one_request_witness :
  let w := MkWorld (__init__ "k" "s" (PStr "tok") (PStr "ref") true)
             (fun _ => 1700000000) 0 (fun _ _ => reply_with chunk_refused) []
             ∅ (fun _ => false) (fun _ => true) in
  exists req,
    assoc "access_token" (params req) = Some (Val (PStr "tok"))
    /\ log (snd (@exec md5_hashlib GetQuota w)) = log w ++ [req].
Proof.
  intros w.
  apply (@fresh_client_one_request md5_hashlib "k" "s" (PStr "tok")
           (PStr "ref") true GetQuota w); reflexivity.
Defined.

(** ** The token life cycle *)

(** A refresh that is answered with a new access token. *)
Lemma refresh_run w r p at' :
  truthy (refresh_token (self w)) = true ->
  server w (log w) (refresh_request (self w)) = Reply r ->
  json r = Some p ->
  p !! "access_token" = Some at' ->
  (forall e, p !! "expires_in" = Some e -> exists z, e = PInt z) ->
  exists w',
    refresh_access_token w = (Ok p, w')
    /\ access_token (self w') = at'
    /\ refresh_token (self w')
       = dict_get p "refresh_token" (refresh_token (self w))
    /\ token_expire_time (self w')
       = match p !! "expires_in" with
         | Some (PInt z) => clock w (ticks w) + z
         | _ => token_expire_time (self w)
         end
    /\ auto_refresh (self w') = auto_refresh (self w)
    /\ log w' = log w ++ [refresh_request (self w)]
    /\ server w' = server w
    /\ files w' = files w.
Proof.
  intros Hrt Hs Hj Hat Hexp.
  unfold refresh_access_token, dict_get. unfold refresh_request in *. run_M.
  rewrite Hrt. cbn [negb].
  destruct (_session (self w)); run_M; rewrite Hs; run_M; rewrite Hj, Hat;
    run_M;
    destruct (p !! "refresh_token") as [v|]; run_M;
    destruct (p !! "expires_in") as [e|] eqn:He; run_M;
    try (destruct (Hexp e eq_refl) as [z ->]; run_M);
    eexists; repeat split.
Qed.

(** X3 ([refresh_access_token]).  A refresh answered with an access token
    stores that token, keeps the old refresh token unless the answer brings a
    new one, and sets the expiry to the clock reading plus [expires_in] when
    the answer has one (otherwise the expiry stays). *)
Theorem refresh_stores_tokens w r p at' :
  truthy (refresh_token (self w)) = true ->
  server w (log w) (refresh_request (self w)) = Reply r ->
  json r = Some p ->
  p !! "access_token" = Some at' ->
  (forall e, p !! "expires_in" = Some e -> exists z, e = PInt z) ->
  exists w',
    refresh_access_token w = (Ok p, w')
    /\ access_token (self w') = at'
    /\ refresh_token (self w')
       = match p !! "refresh_token" with
         | Some rt' => rt'
         | None => refresh_token (self w)
         end
    /\ token_expire_time (self w')
       = match p !! "expires_in" with
         | Some (PInt z) => clock w (ticks w) + z
         | _ => token_expire_time (self w)
         end.
Proof.
  intros Hrt Hs Hj Hat Hexp.
  destruct (refresh_run w r p at' Hrt Hs Hj Hat Hexp)
    as (w' & Hrun & Ha & Hr & He & _).
  exists w'. auto.
Qed.

Lemma refresh_stores_tokens_witness :
  let p : payload := {[ "access_token" := PStr "new" ]} in
  let w := demo_world demo_client p ∅ in
  exists w',
    refresh_access_token w = (Ok p, w')
    /\ access_token (self w') = PStr "new"
    /\ refresh_token (self w') = PStr "ref"
    /\ token_expire_time (self w') = 0.
Proof.
  intros p w.
  apply (refresh_stores_tokens w (Response 200 (Some p) (fun _ => [])) p
           (PStr "new")); try reflexivity.
  intros e He. vm_compute in He. discriminate He.
Defined.

(** X4 ([refresh_access_token]).  When [expires_in] is not a number (a
    string, [null], a list or an object), the refresh raises [TypeError]
    after the new access token, and the new refresh token if any, have been
    stored: the expiry keeps its old value. *)
Theorem refresh_bad_lifetime w r p at' e :
  truthy (refresh_token (self w)) = true ->
  server w (log w) (refresh_request (self w)) = Reply r ->
  json r = Some p ->
  p !! "access_token" = Some at' ->
  p !! "expires_in" = Some e ->
  match e with PInt _ | PBool _ => False | _ => True end ->
  exists w',
    refresh_access_token w = (Raise TypeError, w')
    /\ access_token (self w') = at'
    /\ refresh_token (self w')
       = dict_get p "refresh_token" (refresh_token (self w))
    /\ token_expire_time (self w') = token_expire_time (self w).
Proof.
  intros Hrt Hs Hj Hat He Hbad.
  unfold refresh_access_token, dict_get. unfold refresh_request in *. run_M.
  rewrite Hrt. cbn [negb].
  destruct (_session (self w)); run_M; rewrite Hs; run_M; rewrite Hj, Hat;
    run_M; rewrite He;
    destruct (p !! "refresh_token") as [v|]; run_M;
    destruct e; try contradiction; eexists; repeat split.
Qed.

Lemma refresh_bad_lifetime_witness :
  let p : payload :=
    {[ "access_token" := PStr "new"; "expires_in" := PStr "3600" ]} in
  let w := demo_world demo_client p ∅ in
  exists w',
    refresh_access_token w = (Raise TypeError, w')
    /\ access_token (self w') = PStr "new"
    /\ refresh_token (self w') = PStr "ref"
    /\ token_expire_time (self w') = 0.
Proof.
  intros p w.
  apply (refresh_bad_lifetime w (Response 200 (Some p) (fun _ => [])) p
           (PStr "new") (PStr "3600")); try reflexivity; exact I.
Defined.

(** The authorization code exchanged for a token. *)
Lemma get_access_token_run code redirect_uri w r p at' :
  server w (log w) (code_request (self w) code redirect_uri) = Reply r ->
  json r = Some p ->
  p !! "access_token" = Some at' ->
  (forall e, p !! "expires_in" = Some e -> exists z, e = PInt z) ->
  exists w',
    get_access_token code redirect_uri w = (Ok p, w')
    /\ access_token (self w') = at'
    /\ refresh_token (self w') = dict_get p "refresh_token" PNone
    /\ token_expire_time (self w')
       = match p !! "expires_in" with
         | Some (PInt z) => clock w (ticks w) + z
         | _ => token_expire_time (self w)
         end
    /\ log w' = log w ++ [code_request (self w) code redirect_uri].
Proof.
  intros Hs Hj Hat Hexp.
  unfold get_access_token. unfold code_request in *. run_M.
  destruct (_session (self w)); run_M; rewrite Hs; run_M; rewrite Hj, Hat;
    run_M;
    destruct (p !! "expires_in") as [e|] eqn:He; run_M;
    try (destruct (Hexp e eq_refl) as [z ->]; run_M);
    eexists; repeat split.
Qed.

(** X5 ([get_access_token]).  Exchanging an authorization code needs no
    token: it sends one request to the token endpoint and, when the answer
    has an access token, stores it, sets the expiry from [expires_in], and
    replaces the refresh token by the one of the answer, or by [None] when
    the answer has none (a refresh token held before is lost). *)
Theorem get_access_token_stores code redirect_uri w r p at' :
  server w (log w) (code_request (self w) code redirect_uri) = Reply r ->
  json r = Some p ->
  p !! "access_token" = Some at' ->
  (forall e, p !! "expires_in" = Some e -> exists z, e = PInt z) ->
  exists w',
    get_access_token code redirect_uri w = (Ok p, w')
    /\ access_token (self w') = at'
    /\ refresh_token (self w')
       = match p !! "refresh_token" with
         | Some rt' => rt'
         | None => PNone
         end
    /\ token_expire_time (self w')
       = match p !! "expires_in" with
         | Some (PInt z) => clock w (ticks w) + z
         | _ => token_expire_time (self w)
         end
    /\ log w' = log w ++ [code_request (self w) code redirect_uri].
Proof. apply get_access_token_run. Qed.

Lemma get_access_token_stores_witness :
  let c := __init__ "k" "s" PNone (PStr "old-refresh") true in
  let w := issuing_world c in
  exists w',
    get_access_token "code" "http://localhost/callback" w
      = (Ok {[ "access_token" := PStr "new"; "expires_in" := PInt 3600 ]}, w')
    /\ access_token (self w') = PStr "new"
    /\ refresh_token (self w') = PNone
    /\ token_expire_time (self w') = 2000 + 3600
    /\ log w' = log w ++ [code_request c "code" "http://localhost/callback"].
Proof.
  intros c w.
  assert (forall e,
            ({[ "access_token" := PStr "new"; "expires_in" := PInt 3600 ]}
               : payload) !! "expires_in" = Some e -> exists z, e = PInt z)
    as Hexp.
  { intros e He. vm_compute in He. injection He as <-. now exists 3600. }
  exact (get_access_token_stores "code" "http://localhost/callback" w
           (Response 200
              (Some {[ "access_token" := PStr "new"; "expires_in" := PInt 3600 ]})
              (fun _ => []))
           {[ "access_token" := PStr "new"; "expires_in" := PInt 3600 ]}
           (PStr "new") eq_refl eq_refl eq_refl Hexp).
Defined.

(** X6 ([get_access_token]).  When the answer to the code exchange has no
    [access_token] key (the vendor's error object), the object is returned
    and the stored access token, refresh token and expiry are unchanged. *)
Theorem get_access_token_rejected code redirect_uri w r p :
  server w (log w) (code_request (self w) code redirect_uri) = Reply r ->
  json r = Some p ->
  p !! "access_token" = None ->
  exists w',
    get_access_token code redirect_uri w = (Ok p, w')
    /\ access_token (self w') = access_token (self w)
    /\ refresh_token (self w') = refresh_token (self w)
    /\ token_expire_time (self w') = token_expire_time (self w)
    /\ log w' = log w ++ [code_request (self w) code redirect_uri].
Proof.
  intros Hs Hj Hat.
  unfold get_access_token. unfold code_request in *. run_M.
  destruct (_session (self w)); run_M; rewrite Hs; run_M; rewrite Hj, Hat;
    eexists; repeat split.
Qed.

Lemma get_access_token_rejected_witness :
  let p : payload := {[ "error" := PStr "invalid_grant" ]} in
  let w := demo_world demo_client p ∅ in
  exists w',
    get_access_token "bad" "http://localhost/callback" w = (Ok p, w')
    /\ access_token (self w') = PStr "tok"
    /\ refresh_token (self w') = PStr "ref"
    /\ token_expire_time (self w') = 0
    /\ log w' = log w ++ [code_request demo_client "bad" "http://localhost/callback"].
Proof.
  intros p w.
  apply (get_access_token_rejected "bad" "http://localhost/callback" w
           (Response 200 (Some p) (fun _ => [])) p); reflexivity.
Defined.

(** X7 ([get_access_token], [refresh_access_token]).  After a code exchange
    whose answer brings an access token and no refresh token, the client
    cannot refresh: [refresh_access_token] raises its [ValueError] without
    sending anything, even if a refresh token was set before the
    exchange. *)
Theorem refresh_after_code_without_refresh_token code redirect_uri w r p at' :
  server w (log w) (code_request (self w) code redirect_uri) = Reply r ->
  json r = Some p ->
  p !! "access_token" = Some at' ->
  p !! "refresh_token" = None ->
  (forall e, p !! "expires_in" = Some e -> exists z, e = PInt z) ->
  exists w1,
    get_access_token code redirect_uri w = (Ok p, w1)
    /\ refresh_access_token w1 = (Raise no_refresh_token, w1).
Proof.
  intros Hs Hj Hat Hrt Hexp.
  destruct (get_access_token_run code redirect_uri w r p at' Hs Hj Hat Hexp)
    as (w1 & Hrun & _ & Hr & _).
  exists w1. split; [exact Hrun|].
  apply refresh_token_unset. rewrite Hr. unfold dict_get. now rewrite Hrt.
Qed.

Lemma refresh_after_code_without_refresh_token_witness :
  let w := issuing_world (__init__ "k" "s" PNone (PStr "old-refresh") true) in
  exists w1,
    get_access_token "code" "http://localhost/callback" w
      = (Ok {[ "access_token" := PStr "new"; "expires_in" := PInt 3600 ]}, w1)
    /\ refresh_access_token w1 = (Raise no_refresh_token, w1).
Proof.
  intros w.
  apply (refresh_after_code_without_refresh_token "code"
           "http://localhost/callback" w
           (Response 200
              (Some {[ "access_token" := PStr "new"; "expires_in" := PInt 3600 ]})
              (fun _ => []))
           {[ "access_token" := PStr "new"; "expires_in" := PInt 3600 ]}
           (PStr "new")); try reflexivity.
  intros e He. vm_compute in He. injection He as <-. now exists 3600.
Defined.

(** ** The token check in front of every operation *)

Lemma refresh_rejected_run w r p :
  truthy (refresh_token (self w)) = true ->
  server w (log w) (refresh_request (self w)) = Reply r ->
  json r = Some p ->
  p !! "access_token" = None ->
  exists w',
    refresh_access_token w = (Ok p, w')
    /\ access_token (self w') = access_token (self w)
    /\ token_expire_time (self w') = token_expire_time (self w)
    /\ log w' = log w ++ [refresh_request (self w)]
    /\ server w' = server w.
Proof.
  intros Hrt Hs Hj Hat.
  unfold refresh_access_token. unfold refresh_request in *. run_M.
  rewrite Hrt. cbn [negb].
  destruct (_session (self w)); run_M; rewrite Hs; run_M; rewrite Hj, Hat;
    eexists; repeat split.
Qed.

(** X8 ([_check_token], [refresh_access_token]).  When a refresh is due and
    no refresh token is set, every token-gated operation raises the
    [ValueError] of [refresh_access_token] and sends nothing: the expired
    access token is not used. *)
Theorem gated_call_without_refresh_token `{Hashlib} (c : call) (w : World) :
  truthy (access_token (self w)) = true ->
  refresh_due w = true ->
  truthy (refresh_token (self w)) = false ->
  exec c w = (Raise no_refresh_token, with_ticks (S (ticks w)) w).
Proof.
  intros Hat Hdue Hrt.
  assert (_check_token w = (Raise no_refresh_token, with_ticks (S (ticks w)) w))
    as Hc.
  { rewrite (check_token_due w Hat Hdue).
    now rewrite (refresh_token_unset (with_ticks (S (ticks w)) w) Hrt). }
  destruct c; cbn [exec]; apply returning_raise.
  all: try (apply bind_raise; exact Hc).
  apply bind_raise. unfold get_download_link. apply bind_raise. exact Hc.
Qed.

Lemma gated_call_without_refresh_token_witness :
  let w := demo_world (set_refresh_token PNone expiring_client)
             session_opened ∅ in
  @exec md5_hashlib (ListShares 0 100) w
  = (Raise no_refresh_token, with_ticks 1 w).
Proof.
  intros w.
  apply (@gated_call_without_refresh_token md5_hashlib (ListShares 0 100) w);
    reflexivity.
Defined.

(** X9 ([_check_token], [refresh_access_token]).  When a refresh is due and
    the vendor answers it with a new access token, a pass-through operation
    sends two requests, the refresh and then its own, and its own request
    carries the new token, not the one that was stored when the call
    began. *)
Theorem refreshed_token_is_used `{Hashlib} c w r p at' :
  is_passthrough c = true ->
  truthy (access_token (self w)) = true ->
  refresh_due w = true ->
  truthy (refresh_token (self w)) = true ->
  server w (log w) (refresh_request (self w)) = Reply r ->
  json r = Some p ->
  p !! "access_token" = Some at' ->
  (forall e, p !! "expires_in" = Some e -> exists z, e = PInt z) ->
  exists req,
    assoc "access_token" (params req) = Some (Val at')
    /\ log (snd (exec c w)) = log w ++ [refresh_request (self w); req].
Proof.
  intros Hp Hat Hdue Hrt Hs Hj Hnew Hexp.
  destruct (refresh_run (with_ticks (S (ticks w)) w) r p at' Hrt Hs Hj Hnew Hexp)
    as (w1 & Hrun & Ha & _ & _ & _ & Hlog & _).
  assert (_check_token w = (Ok tt, w1)) as Hc
    by (rewrite (check_token_due w Hat Hdue); now rewrite Hrun).
  destruct (passthrough_run c w w1 Hp Hc) as (req & Hreq & ->).
  exists req. rewrite <- Ha. split; [exact Hreq|].
  destruct (as_dict_answer req w1) as [-> _].
  rewrite Hlog, <- app_assoc. reflexivity.
Qed.

Lemma refreshed_token_is_used_witness :
  let w := issuing_world expiring_client in
  exists req,
    assoc "access_token" (params req) = Some (Val (PStr "new"))
    /\ log (snd (@exec md5_hashlib GetUserInfo w))
       = log w ++ [refresh_request (self w); req].
Proof.
  intros w.
  assert (forall e,
            ({[ "access_token" := PStr "new"; "expires_in" := PInt 3600 ]}
               : payload) !! "expires_in" = Some e -> exists z, e = PInt z)
    as Hexp.
  { intros e He. vm_compute in He. injection He as <-. now exists 3600. }
  exact (@refreshed_token_is_used md5_hashlib GetUserInfo w
           (Response 200
              (Some {[ "access_token" := PStr "new"; "expires_in" := PInt 3600 ]})
              (fun _ => []))
           {[ "access_token" := PStr "new"; "expires_in" := PInt 3600 ]}
           (PStr "new") eq_refl eq_refl eq_refl eq_refl eq_refl eq_refl eq_refl
           Hexp).
Defined.

(** X10 ([_check_token]).  A due refresh that the vendor answers without an
    access token is not reported: the token check ignores what
    [refresh_access_token] returns, so the operation goes on with the old
    token and returns the vendor's answer to its own request; the expiry is
    unchanged, so the next call tries to refresh again. *)
Theorem failed_refresh_is_silent `{Hashlib} c w r p :
  is_passthrough c = true ->
  truthy (access_token (self w)) = true ->
  refresh_due w = true ->
  truthy (refresh_token (self w)) = true ->
  server w (log w) (refresh_request (self w)) = Reply r ->
  json r = Some p ->
  p !! "access_token" = None ->
  exists req,
    assoc "access_token" (params req) = Some (Val (access_token (self w)))
    /\ log (snd (exec c w)) = log w ++ [refresh_request (self w); req]
    /\ token_expire_time (self (snd (exec c w))) = token_expire_time (self w)
    /\ (forall r' p',
          server w (log w ++ [refresh_request (self w)]) req = Reply r' ->
          json r' = Some p' ->
          fst (exec c w) = Ok (RDict p')).
Proof.
  intros Hp Hat Hdue Hrt Hs Hj Hnone.
  destruct (refresh_rejected_run (with_ticks (S (ticks w)) w) r p Hrt Hs Hj Hnone)
    as (w1 & Hrun & Ha & He & Hlog & Hsrv).
  cbn [self log server with_ticks] in Ha, He, Hlog, Hsrv.
  assert (_check_token w = (Ok tt, w1)) as Hc
    by (rewrite (check_token_due w Hat Hdue); now rewrite Hrun).
  destruct (passthrough_run c w w1 Hp Hc) as (req & Hreq & ->).
  exists req. rewrite <- Ha. split; [exact Hreq|].
  destruct (as_dict_answer req w1) as (Hl & Hok & _).
  split; [rewrite Hl, Hlog, <- app_assoc; reflexivity|].
  split.
  - rewrite <- He. unfold answer.
    destruct (server w1 (log w1) req) as [[st [p'|] ic]|];
      cbn [json as_dict snd]; unfold sent, touch_session;
      destruct (_session (self w1)); reflexivity.
  - intros r' p' Hs' Hj'. apply (Hok r' p'); [|exact Hj'].
    now rewrite Hsrv, Hlog.
Qed.

Lemma failed_refresh_is_silent_witness :
  let w := demo_world expiring_client chunk_refused ∅ in
  exists req,
    assoc "access_token" (params req) = Some (Val (PStr "tok"))
    /\ log (snd (@exec md5_hashlib GetQuota w))
       = log w ++ [refresh_request (self w); req]
    /\ token_expire_time (self (snd (@exec md5_hashlib GetQuota w))) = 1000
    /\ (forall r' p',
          server w (log w ++ [refresh_request (self w)]) req = Reply r' ->
          json r' = Some p' ->
          fst (@exec md5_hashlib GetQuota w) = Ok (RDict p')).
Proof.
  intros w.
  exact (@failed_refresh_is_silent md5_hashlib GetQuota w
           (Response 200 (Some chunk_refused) (fun _ => [])) chunk_refused
           eq_refl eq_refl eq_refl eq_refl eq_refl eq_refl eq_refl).
Defined.

(** ** Upload: errors before and at the first request *)

Section UploadEdges.
Context `{Hashlib}.

(** X11 ([upload_file]).  For a path that is no regular file, [upload_file]
    raises [FileNotFoundError] once the token check has passed: the check
    comes first (it may have sent its refresh request), and no upload request
    of any kind is sent. *)
Theorem upload_missing_file local_path remote_path ondup w w1 :
  files w !! local_path = None ->
  _check_token w = (Ok tt, w1) ->
  upload_file local_path remote_path ondup w
    = (Raise (no_such_file local_path), w1)
  /\ (log w1 = log w \/ log w1 = log w ++ [refresh_request (self w)]).
Proof.
  intros Hf Hc.
  destruct (check_token_frame _ _ _ Hc) as (Hfiles & _ & Hlog).
  split; [|exact Hlog].
  unfold upload_file. unfold bind at 1. rewrite Hc.
  unfold bind at 1. unfold isfile, gets. rewrite Hfiles, Hf.
  rewrite bool_decide_eq_false_2 by (intros [x Hx]; discriminate Hx).
  reflexivity.
Qed.

(** X12 ([_upload_large_file]).  When the vendor answers the precreate call
    with a non-zero [errno], that answer is returned as it is and the
    precreate call is the only request sent: no chunk is read or uploaded. *)
Theorem precreate_refused local_path remote_path ondup content w r p :
  files w !! local_path = Some content ->
  server w (log w)
    (precreate_request (access_token (self w)) remote_path
       (Z.of_nat (length content)) ondup) = Reply r ->
  json r = Some p ->
  errno_nonzero p = true ->
  fst (_upload_large_file local_path remote_path ondup w) = Ok p
  /\ log (snd (_upload_large_file local_path remote_path ondup w))
     = log w ++ [precreate_request (access_token (self w)) remote_path
                   (Z.of_nat (length content)) ondup].
Proof.
  intros Hf Hs Hj He.
  rewrite (upload_large_file_run _ _ _ _ _ Hf). cbv zeta.
  rewrite (answer_ok _ _ _ _ Hs Hj), He. cbn [fst snd].
  split; [reflexivity | apply sent_log].
Qed.

(** X13 ([upload_file], [_upload_small_file]).  With a token set and no
    refresh due, a file of at most 4,194,304 bytes, the empty file included,
    is sent in one request whose body is the whole content.  The vendor's
    JSON object is returned as it is, whatever its [errno]; a transport
    failure is raised to the caller. *)
Theorem small_upload_result local_path remote_path ondup content w :
  files w !! local_path = Some content ->
  Z.of_nat (length content) <= 4194304 ->
  truthy (access_token (self w)) = true ->
  refresh_due w = false ->
  let req := small_upload_request (access_token (self w)) remote_path ondup
               content in
  log (snd (upload_file local_path remote_path ondup w)) = log w ++ [req]
  /\ (forall r p, server w (log w) req = Reply r -> json r = Some p ->
        fst (upload_file local_path remote_path ondup w) = Ok p)
  /\ (server w (log w) req = Fault ->
        fst (upload_file local_path remote_path ondup w)
        = Raise RequestException).
Proof.
  intros Hf Hle Hat Hdue req.
  assert (upload_file local_path remote_path ondup w
          = answer req (with_ticks (S (ticks w)) w)) as ->.
  { unfold upload_file. unfold bind at 1.
    rewrite (check_token_quiet w Hat Hdue).
    unfold bind at 1. unfold isfile, gets. cbn [files with_ticks]. rewrite Hf.
    rewrite bool_decide_eq_true_2 by eauto. cbn [negb].
    unfold bind at 1. unfold getsize. cbn [files with_ticks]. rewrite Hf.
    replace (4 * 1024 * 1024 <? Z.of_nat (length content)) with false
      by (symmetry; apply Z.ltb_ge; lia).
    exact (upload_small_file_answer local_path remote_path ondup content
             (with_ticks (S (ticks w)) w) Hf). }
  unfold answer. cbn [server log with_ticks].
  destruct (server w (log w) req) as [[st [p|] ic]|]; cbn [json fst snd];
    rewrite sent_log; cbn [log with_ticks];
    (split; [reflexivity|]); split; intros; simplify_eq/=; congruence.
Qed.

End UploadEdges.

Lemma upload_missing_file_witness :
  let w := demo_world demo_client session_opened ∅ in
  @upload_file md5_hashlib "nowhere" "/a.txt" "overwrite" w
    = (Raise (no_such_file "nowhere"), with_ticks 1 w)
  /\ (log (with_ticks 1 w) = log w
      \/ log (with_ticks 1 w) = log w ++ [refresh_request (self w)]).
Proof.
  intros w.
  apply (@upload_missing_file md5_hashlib "nowhere" "/a.txt" "overwrite" w
           (with_ticks 1 w)); reflexivity.
Defined.

Lemma precreate_refused_witness :
  let w := demo_world demo_client chunk_refused {[ "a.txt" := hundred_bytes ]} in
  fst (@_upload_large_file md5_hashlib "a.txt" "/a.txt" "overwrite" w)
    = Ok chunk_refused
  /\ log (snd (@_upload_large_file md5_hashlib "a.txt" "/a.txt" "overwrite" w))
     = log w ++ [precreate_request (PStr "tok") "/a.txt" 100 "overwrite"].
Proof.
  intros w.
  exact (@precreate_refused md5_hashlib "a.txt" "/a.txt" "overwrite"
           hundred_bytes w (Response 200 (Some chunk_refused) (fun _ => []))
           chunk_refused eq_refl eq_refl eq_refl eq_refl).
Defined.

Lemma small_upload_result_witness :
  let w := demo_world demo_client chunk_refused {[ "empty" := [] ]} in
  let req := small_upload_request (PStr "tok") "/e" "newcopy" [] in
  log (snd (@upload_file md5_hashlib "empty" "/e" "newcopy" w)) = log w ++ [req]
  /\ (forall r p, server w (log w) req = Reply r -> json r = Some p ->
        fst (@upload_file md5_hashlib "empty" "/e" "newcopy" w) = Ok p)
  /\ (server w (log w) req = Fault ->
        fst (@upload_file md5_hashlib "empty" "/e" "newcopy" w)
        = Raise RequestException).
Proof.
  intros w req.
  apply (@small_upload_result md5_hashlib "empty" "/e" "newcopy" [] w);
    try reflexivity.
  vm_compute. discriminate.
Defined.

(** ** Upload: the pieces of a file *)

Lemma chunks_of_step chunk_size rest :
  chunks_of chunk_size rest =
  match f_read chunk_size rest with
  | ([], _) => []
  | (chunk, rest') => chunk :: chunks_of chunk_size rest'
  end.
Proof.
  funelim (chunks_of chunk_size rest);
    match goal with E : f_read _ _ = _ |- _ => rewrite E end; reflexivity.
Qed.

Lemma chunks_of_nil chunk_size : chunks_of chunk_size [] = [].
Proof.
  rewrite chunks_of_step. unfold f_read. now destruct (chunk_size <? 0).
Qed.

(** With a positive size, the first piece is the first [chunk_size] bytes
    and the others are the pieces of what is left. *)
Lemma chunks_of_cons chunk_size rest :
  0 < chunk_size -> rest <> [] ->
  chunks_of chunk_size rest =
  take (Z.to_nat chunk_size) rest
  :: chunks_of chunk_size (drop (Z.to_nat chunk_size) rest).
Proof.
  intros Hpos Hne. rewrite chunks_of_step, f_read_take_drop by lia.
  destruct (take (Z.to_nat chunk_size) rest) as [|b chunk] eqn:Et;
    [|reflexivity].
  destruct rest as [|x rest]; [congruence|].
  replace (Z.to_nat chunk_size) with (S (Z.to_nat (chunk_size - 1))) in Et
    by lia.
  discriminate Et.
Qed.

Lemma chunks_of_facts chunk_size (n : nat) :
  0 < chunk_size ->
  forall rest, (length rest <= n)%nat ->
  concat (chunks_of chunk_size rest) = rest
  /\ Forall (fun chunk => 0 < Z.of_nat (length chunk) <= chunk_size)
       (chunks_of chunk_size rest)
  /\ Z.of_nat (length (chunks_of chunk_size rest))
     = (Z.of_nat (length rest) + chunk_size - 1) / chunk_size.
Proof.
  intros Hpos. induction n as [|n IH]; intros rest Hlen.
  - destruct rest; [|cbn in Hlen; lia]. rewrite chunks_of_nil.
    split; [reflexivity|]. split; [constructor|].
    cbn. symmetry. apply Z.div_small. lia.
  - destruct rest as [|x rest'] eqn:Er.
    { rewrite chunks_of_nil. split; [reflexivity|]. split; [constructor|].
      cbn. symmetry. apply Z.div_small. lia. }
    rewrite <- Er in *. assert (rest <> []) as Hne by (rewrite Er; discriminate).
    assert (0 < length rest)%nat as Hl by (rewrite Er; cbn; lia).
    clear Er x rest'.
    rewrite (chunks_of_cons _ _ Hpos Hne).
    destruct (IH (drop (Z.to_nat chunk_size) rest)) as (Hc & Hb & Hn).
    { rewrite length_drop. lia. }
    split; [|split].
    + cbn [concat]. rewrite Hc. apply take_drop.
    + constructor; [|exact Hb]. rewrite length_take. lia.
    + cbn [length]. rewrite Nat2Z.inj_succ, Hn, length_drop.
      destruct (Z.le_gt_cases (Z.of_nat (length rest)) chunk_size) as [Hs|Hg].
      * replace (Z.of_nat (length rest - Z.to_nat chunk_size)) with 0 by lia.
        rewrite (Z.div_small (0 + chunk_size - 1)) by lia.
        replace (Z.of_nat (length rest) + chunk_size - 1)
          with ((Z.of_nat (length rest) - 1) + 1 * chunk_size) by lia.
        rewrite Z.div_add by lia. rewrite Z.div_small by lia. reflexivity.
      * replace (Z.of_nat (length rest - Z.to_nat chunk_size))
          with (Z.of_nat (length rest) - chunk_size) by lia.
        replace (Z.of_nat (length rest) + chunk_size - 1)
          with ((Z.of_nat (length rest) - chunk_size + chunk_size - 1)
                + 1 * chunk_size) by lia.
        rewrite Z.div_add by lia. lia.
Qed.

Lemma sent_all_frame reqs :
  forall w,
  access_token (self (sent_all reqs w)) = access_token (self w)
  /\ server (sent_all reqs w) = server w
  /\ log (sent_all reqs w) = log w ++ reqs.
Proof.
  induction reqs as [|q reqs IH]; intros w; cbn [sent_all fold_left].
  - now rewrite app_nil_r.
  - destruct (IH (sent q w)) as (Ha & Hs & Hl). unfold sent_all in *.
    rewrite Ha, Hs, Hl, sent_token, sent_server, sent_log, <- app_assoc.
    auto.
Qed.

Section AllChunks.
Context `{Hashlib}.

(** The loop on a vendor that accepts every chunk. *)
Lemma upload_loop_all_accepted chunk_size remote_path upload_id (n : nat) :
  0 < chunk_size ->
  forall rest block_index block_list w,
  (length rest <= n)%nat ->
  (forall history i chunk,
     exists r p,
       server w history
         (chunk_request (access_token (self w)) remote_path upload_id i chunk)
       = Reply r
       /\ json r = Some p /\ errno_nonzero p = false) ->
  upload_loop chunk_size remote_path upload_id rest block_index block_list w
  = (Ok (inr (block_list ++ (md5_hex <$> chunks_of chunk_size rest))),
     sent_all (chunk_requests (access_token (self w)) remote_path upload_id
                 block_index (chunks_of chunk_size rest)) w).
Proof.
  intros Hpos. induction n as [|n IH];
    intros rest block_index block_list w Hlen Hacc.
  - destruct rest; [|cbn in Hlen; lia].
    rewrite chunks_of_nil, upload_loop_eof. cbn. now rewrite app_nil_r.
  - destruct rest as [|x rest'] eqn:Er.
    { rewrite chunks_of_nil, upload_loop_eof. cbn. now rewrite app_nil_r. }
    rewrite <- Er in *. assert (rest <> []) as Hne by (rewrite Er; discriminate).
    assert (0 < length rest)%nat as Hl by (rewrite Er; cbn; lia).
    clear Er x rest'.
    rewrite (chunks_of_cons _ _ Hpos Hne).
    destruct (Hacc (log w) block_index (take (Z.to_nat chunk_size) rest))
      as (r & p & Hs & Hj & He).
    rewrite (upload_loop_accepted _ _ _ _ _ _ _ r p Hpos Hne Hs Hj He).
    rewrite IH.
    + rewrite sent_token. cbn [fmap list_fmap chunk_requests sent_all fold_left].
      rewrite <- app_assoc. reflexivity.
    + rewrite length_drop. lia.
    + intros history i chunk. rewrite sent_token, sent_server. apply Hacc.
Qed.

(** X14 ([_upload_large_file]).  On a vendor that accepts the precreate call
    and every chunk, a chunked upload of any file sends: precreate; one
    upload per piece of the file, the pieces being consecutive, non-empty, of
    at most 4,194,304 bytes, ceil(size / 4,194,304) in number, numbered from
    0 in file order, and making up the file when put together; then the
    finalize call with the MD5 of every piece in that order.  The answer to
    the finalize call is what is returned. *)
Theorem chunked_upload_accepted local_path remote_path ondup content w r0 p0 :
  let token := access_token (self w) in
  let file_size := Z.of_nat (length content) in
  let upload_id := dict_get p0 "uploadid" (PStr EmptyString) in
  let chunks := chunks_of (4 * 1024 * 1024) content in
  let P := precreate_request token remote_path file_size ondup in
  let Q := chunk_requests token remote_path upload_id 0 chunks in
  let F := finalize_request token remote_path file_size upload_id
             (md5_hex <$> chunks) ondup in
  files w !! local_path = Some content ->
  server w (log w) P = Reply r0 -> json r0 = Some p0 ->
  errno_nonzero p0 = false -> truthy upload_id = true ->
  (forall history i chunk,
     exists r p,
       server w history (chunk_request token remote_path upload_id i chunk)
       = Reply r
       /\ json r = Some p /\ errno_nonzero p = false) ->
  concat chunks = content
  /\ Forall (fun chunk => 0 < Z.of_nat (length chunk) <= 4194304) chunks
  /\ Z.of_nat (length chunks) = (file_size + 4194303) / 4194304
  /\ log (snd (_upload_large_file local_path remote_path ondup w))
     = log w ++ [P] ++ Q ++ [F]
  /\ (forall r p,
        server w (log w ++ [P] ++ Q) F = Reply r -> json r = Some p ->
        fst (_upload_large_file local_path remote_path ondup w) = Ok p).
Proof.
  intros token file_size upload_id chunks P Q F Hf Hs0 Hj0 He0 Hu Hacc.
  destruct (chunks_of_facts (4 * 1024 * 1024) (length content) ltac:(lia)
              content ltac:(lia)) as (Hc & Hb & Hn).
  split; [exact Hc|]. split; [exact Hb|].
  split; [unfold chunks, file_size; rewrite Hn; f_equal; lia|].
  rewrite (upload_large_file_run _ _ _ _ _ Hf). cbv zeta.
  fold file_size token P.
  rewrite (answer_ok _ _ _ _ Hs0 Hj0), He0. fold upload_id. rewrite Hu.
  cbn [negb].
  rewrite (upload_loop_all_accepted _ _ _ (length content)); try lia.
  2: { intros history i chunk. rewrite sent_token, sent_server. apply Hacc. }
  rewrite app_nil_l, sent_token. fold token chunks Q.
  destruct (sent_all_frame Q (sent P w)) as (Ha & Hsrv & Hlog).
  rewrite Ha, sent_token. fold token F.
  rewrite sent_log in Hlog. rewrite sent_server in Hsrv.
  destruct (answer F (sent_all Q (sent P w))) as [res w'] eqn:Hans.
  destruct (answer_frame _ _ _ _ Hans) as (_ & _ & Hlog' & _).
  cbn [fst snd]. split.
  - rewrite Hlog', Hlog, <- !app_assoc. reflexivity.
  - intros r p Hs Hj.
    apply (answer_reply _ _ _ _ r p Hans); [|exact Hj].
    rewrite Hsrv, Hlog, <- app_assoc. exact Hs.
Qed.

End AllChunks.

Lemma chunked_upload_accepted_witness :
  let w := demo_world demo_client session_opened {[ "a.txt" := hundred_bytes ]} in
  let chunks := chunks_of (4 * 1024 * 1024) hundred_bytes in
  let P := precreate_request (PStr "tok") "/a.txt" 100 "overwrite" in
  let Q := chunk_requests (PStr "tok") "/a.txt" (PStr "u-1") 0 chunks in
  let F := finalize_request (PStr "tok") "/a.txt" 100 (PStr "u-1")
             (@md5_hex md5_hashlib <$> chunks) "overwrite" in
  concat chunks = hundred_bytes
  /\ Forall (fun chunk => 0 < Z.of_nat (length chunk) <= 4194304) chunks
  /\ Z.of_nat (length chunks) = (100 + 4194303) / 4194304
  /\ log (snd (@_upload_large_file md5_hashlib "a.txt" "/a.txt" "overwrite" w))
     = log w ++ [P] ++ Q ++ [F]
  /\ (forall r p,
        server w (log w ++ [P] ++ Q) F = Reply r -> json r = Some p ->
        fst (@_upload_large_file md5_hashlib "a.txt" "/a.txt" "overwrite" w)
        = Ok p).
Proof.
  intros w chunks P Q F.
  refine (@chunked_upload_accepted md5_hashlib "a.txt" "/a.txt" "overwrite"
            hundred_bytes w (Response 200 (Some session_opened) (fun _ => []))
            session_opened eq_refl eq_refl eq_refl eq_refl eq_refl _).
  intros history i chunk.
  exists (Response 200 (Some session_opened) (fun _ => [])), session_opened.
  repeat split.
Defined.

(** The hash list of a small file sent through the chunked path. *)
Example chunked_upload_block_list :
  let w := demo_world demo_client session_opened {[ "a.txt" := hundred_bytes ]} in
  last (log (snd (@_upload_large_file md5_hashlib "a.txt" "/a.txt" "overwrite" w)))
  = Some (finalize_request (PStr "tok") "/a.txt" 100 (PStr "u-1")
            ["36a92cc94a9e0fa21f625f8bfb007adf"] "overwrite").
Proof. vm_compute. reflexivity. Qed.

(** ** Upload: a transport failure on a chunk *)

Lemma answer_fault req w :
  server w (log w) req = Fault ->
  answer req w = (Raise RequestException, sent req w).
Proof. unfold answer. now intros ->. Qed.

Section ChunkFault.
Context `{Hashlib}.

(** One turn of the loop on a chunk the transport fails to deliver. *)
Lemma upload_loop_faulted chunk_size remote_path upload_id rest block_index
    block_list w :
  0 < chunk_size -> rest <> [] ->
  server w (log w)
    (chunk_request (access_token (self w)) remote_path upload_id block_index
       (take (Z.to_nat chunk_size) rest)) = Fault ->
  upload_loop chunk_size remote_path upload_id rest block_index block_list w
  = (Raise RequestException,
     sent (chunk_request (access_token (self w)) remote_path upload_id
             block_index (take (Z.to_nat chunk_size) rest)) w).
Proof.
  intros Hpos Hne Hs.
  rewrite upload_loop_step, f_read_take_drop by lia.
  destruct (take (Z.to_nat chunk_size) rest) as [|b chunk] eqn:Et.
  { destruct rest as [|x rest]; [congruence|].
    replace (Z.to_nat chunk_size) with (S (Z.to_nat (chunk_size - 1))) in Et
      by lia.
    discriminate Et. }
  unfold bind. rewrite upload_chunk_answer, (answer_fault _ _ Hs).
  reflexivity.
Qed.

(** The loop on a vendor that accepts every chunk but number [k], on which
    the transport fails. *)
Lemma upload_loop_fault_at chunk_size remote_path upload_id k (n : nat) :
  0 < chunk_size ->
  forall rest block_index block_list w,
  (length rest <= n)%nat ->
  block_index <= k
    < block_index + Z.of_nat (length (chunks_of chunk_size rest)) ->
  (forall history i chunk, i <> k ->
     exists r p,
       server w history
         (chunk_request (access_token (self w)) remote_path upload_id i chunk)
       = Reply r
       /\ json r = Some p /\ errno_nonzero p = false) ->
  (forall history chunk,
     server w history
       (chunk_request (access_token (self w)) remote_path upload_id k chunk)
     = Fault) ->
  upload_loop chunk_size remote_path upload_id rest block_index block_list w
  = (Raise RequestException,
     sent_all
       (take (S (Z.to_nat (k - block_index)))
          (chunk_requests (access_token (self w)) remote_path upload_id
             block_index (chunks_of chunk_size rest))) w).
Proof.
  intros Hpos. induction n as [|n IH];
    intros rest block_index block_list w Hlen Hk Hacc Hfault.
  - destruct rest; [|cbn in Hlen; lia].
    rewrite chunks_of_nil in Hk. cbn in Hk. lia.
  - destruct rest as [|x rest'] eqn:Er.
    { rewrite chunks_of_nil in Hk. cbn in Hk. lia. }
    rewrite <- Er in *. assert (rest <> []) as Hne by (rewrite Er; discriminate).
    assert (0 < length rest)%nat as Hl by (rewrite Er; cbn; lia).
    clear Er x rest'.
    rewrite (chunks_of_cons _ _ Hpos Hne) in *.
    cbn [length chunk_requests] in *.
    destruct (Z.eq_dec block_index k) as [->|Hne_k].
    + rewrite (upload_loop_faulted _ _ _ _ _ _ _ Hpos Hne (Hfault _ _)).
      replace (Z.to_nat (k - k)) with 0%nat by lia. reflexivity.
    + destruct (Hacc (log w) block_index (take (Z.to_nat chunk_size) rest) Hne_k)
        as (r & p & Hs & Hj & He).
      rewrite (upload_loop_accepted _ _ _ _ _ _ _ r p Hpos Hne Hs Hj He).
      rewrite IH.
      * rewrite sent_token.
        replace (Z.to_nat (k - block_index))
          with (S (Z.to_nat (k - (block_index + 1)))) by lia.
        reflexivity.
      * rewrite length_drop. lia.
      * lia.
      * intros history i chunk Hi. rewrite sent_token, sent_server.
        now apply Hacc.
      * intros history chunk. rewrite sent_token, sent_server. apply Hfault.
Qed.

(** X15 ([_upload_large_file], [_upload_chunk]).  When the transport fails
    on the chunk with index [k], the chunks before it having been accepted,
    the exception of [requests] reaches the caller: the run has sent
    precreate and the chunks 0 to [k], and sends neither a later chunk nor
    the finalize call. *)
Theorem chunk_transport_failure local_path remote_path ondup content w r0 p0 k :
  let token := access_token (self w) in
  let file_size := Z.of_nat (length content) in
  let upload_id := dict_get p0 "uploadid" (PStr EmptyString) in
  let chunks := chunks_of (4 * 1024 * 1024) content in
  let P := precreate_request token remote_path file_size ondup in
  let Q := chunk_requests token remote_path upload_id 0 chunks in
  files w !! local_path = Some content ->
  server w (log w) P = Reply r0 -> json r0 = Some p0 ->
  errno_nonzero p0 = false -> truthy upload_id = true ->
  0 <= k < Z.of_nat (length chunks) ->
  (forall history i chunk, i <> k ->
     exists r p,
       server w history (chunk_request token remote_path upload_id i chunk)
       = Reply r
       /\ json r = Some p /\ errno_nonzero p = false) ->
  (forall history chunk,
     server w history (chunk_request token remote_path upload_id k chunk)
     = Fault) ->
  fst (_upload_large_file local_path remote_path ondup w)
    = Raise RequestException
  /\ log (snd (_upload_large_file local_path remote_path ondup w))
     = log w ++ [P] ++ take (S (Z.to_nat k)) Q.
Proof.
  intros token file_size upload_id chunks P Q Hf Hs0 Hj0 He0 Hu Hk Hacc Hfault.
  rewrite (upload_large_file_run _ _ _ _ _ Hf). cbv zeta.
  fold file_size token P.
  rewrite (answer_ok _ _ _ _ Hs0 Hj0), He0. fold upload_id. rewrite Hu.
  cbn [negb].
  rewrite (upload_loop_fault_at _ _ _ k (length content)); try lia.
  - rewrite sent_token. fold token chunks Q. cbn [fst snd].
    split; [reflexivity|].
    destruct (sent_all_frame (take (S (Z.to_nat (k - 0))) Q) (sent P w))
      as (_ & _ & Hlog).
    rewrite Hlog, sent_log, <- app_assoc. now rewrite Z.sub_0_r.
  - fold chunks. lia.
  - intros history i chunk Hi. rewrite sent_token, sent_server. now apply Hacc.
  - intros history chunk. rewrite sent_token, sent_server. apply Hfault.
Qed.

End ChunkFault.

Lemma chunk_transport_failure_witness :
  let w := dropping_world 0 {[ "a.txt" := hundred_bytes ]} in
  let chunks := chunks_of (4 * 1024 * 1024) hundred_bytes in
  let P := precreate_request (PStr "tok") "/a.txt" 100 "overwrite" in
  let Q := chunk_requests (PStr "tok") "/a.txt" (PStr "u-1") 0 chunks in
  0 <= 0 < Z.of_nat (length chunks)
  /\ fst (@_upload_large_file md5_hashlib "a.txt" "/a.txt" "overwrite" w)
     = Raise RequestException
  /\ log (snd (@_upload_large_file md5_hashlib "a.txt" "/a.txt" "overwrite" w))
     = log w ++ [P] ++ take 1 Q.
Proof.
  intros w chunks P Q.
  assert (0 <= 0 < Z.of_nat (length chunks)) as Hk by (vm_compute; split; congruence).
  split; [exact Hk|].
  refine (@chunk_transport_failure md5_hashlib "a.txt" "/a.txt" "overwrite"
            hundred_bytes w (Response 200 (Some session_opened) (fun _ => []))
            session_opened 0 eq_refl eq_refl eq_refl eq_refl eq_refl Hk _ _).
  - intros history i chunk Hi.
    exists (Response 200 (Some session_opened) (fun _ => [])), session_opened.
    split; [|split; reflexivity].
    cbn [server w dropping_world]. unfold dropping_server.
    rewrite partseq_chunk. destruct (Z.eqb_spec i 0); [contradiction|].
    reflexivity.
  - intros history chunk. reflexivity.
Defined.

(** ** Download *)

(** X16 ([download_file]).  When the download gets as far as opening the
    local file, the file is replaced: whatever it held before, it ends up
    holding a prefix of the data received and nothing of its old content,
    and no other local file changes.  With no failing write or close it
    holds exactly the chunks received before the stream ended or broke
    (possibly none), and [True] is returned exactly when the stream ended
    normally; [True] is never returned with less than the whole body on
    disk or after a failing close.  So a download that breaks in mid-stream
    destroys the previous content of the target. *)
Theorem download_replaces_file file_path local_path chunk_size w link w1 r :
  get_download_link file_path w = (Ok link, w1) ->
  stream_opened link w1 local_path = Some r ->
  exists b kept,
    fst (download_file file_path local_path chunk_size w) = Ok b
    /\ files (snd (download_file file_path local_path chunk_size w))
       = <[local_path := kept]> (files w)
    /\ kept `prefix_of` written (iter_content r chunk_size)
    /\ (b = true ->
        complete (iter_content r chunk_size) = true
        /\ kept = written (iter_content r chunk_size)
        /\ fs_fault w1 (Close local_path) = false)
    /\ ((forall pos, fs_fault w1 (Write local_path pos) = false) ->
        fs_fault w1 (Close local_path) = false ->
        kept = written (iter_content r chunk_size)
        /\ b = complete (iter_content r chunk_size)).
Proof.
  intros Hlink Hopen.
  destruct (download_file_cases file_path local_path chunk_size w link w1 Hlink)
    as (b & w2 & -> & Hcases).
  rewrite Hopen in Hcases. destruct Hcases as (kept & Hcases).
  exists b, kept. split; [reflexivity | exact Hcases].
Qed.

(** X17 ([download_file]).  When the download stops before the local file
    is opened (empty or non-string link, transport failure or non-200 status
    of the streaming request, directory or file that cannot be created),
    [False] is returned and the local files are untouched: the target is
    neither created nor truncated.  With an empty link no second request is
    sent. *)
Theorem download_refused file_path local_path chunk_size w link w1 :
  get_download_link file_path w = (Ok link, w1) ->
  stream_opened link w1 local_path = None ->
  fst (download_file file_path local_path chunk_size w) = Ok false
  /\ files (snd (download_file file_path local_path chunk_size w)) = files w
  /\ (truthy link = false ->
      log (snd (download_file file_path local_path chunk_size w)) = log w1).
Proof.
  intros Hlink Hopen.
  destruct (download_file_cases file_path local_path chunk_size w link w1 Hlink)
    as (b & w2 & -> & Hcases).
  rewrite Hopen in Hcases. destruct Hcases as (-> & Hf & Hl). auto.
Qed.

Lemma download_replaces_file_witness :
  let w := with_files {[ "l.bin" := hundred_bytes; "other" := [x7a] ]}
             broken_stream_world in
  fst (download_file "/r.bin" "l.bin" (1024 * 1024) w) = Ok false
  /\ files (snd (download_file "/r.bin" "l.bin" (1024 * 1024) w))
     = <["l.bin" := [x61; x62]]> (files w)
  /\ files (snd (download_file "/r.bin" "l.bin" (1024 * 1024) w)) !! "other"
     = Some [x7a].
Proof.
  intros w.
  destruct (download_replaces_file "/r.bin" "l.bin" (1024 * 1024) w
              (PStr "http://d/x") (snd (get_download_link "/r.bin" w))
              (Response 200 None (fun _ => [Some [x61; x62]; None]))
              eq_refl eq_refl) as (b & kept & Hres & Hfiles & _ & _ & Hall).
  destruct (Hall (fun _ => eq_refl) eq_refl) as [-> ->].
  split; [exact Hres|]. split; [exact Hfiles|].
  rewrite Hfiles. reflexivity.
Defined.

Lemma download_refused_witness :
  let w := demo_world demo_client session_opened
             {[ "l.bin" := hundred_bytes ]} in
  fst (download_file "/r.bin" "l.bin" (1024 * 1024) w) = Ok false
  /\ files (snd (download_file "/r.bin" "l.bin" (1024 * 1024) w)) = files w
  /\ (truthy (PStr EmptyString) = false ->
      log (snd (download_file "/r.bin" "l.bin" (1024 * 1024) w))
      = [link_request (PStr "tok") "/r.bin"]).
Proof.
  intros w.
  exact (download_refused "/r.bin" "l.bin" (1024 * 1024) w (PStr EmptyString)
           (snd (get_download_link "/r.bin" w)) eq_refl eq_refl).
Defined.

Lemma get_download_link_run file_path w :
  truthy (access_token (self w)) = true ->
  refresh_due w = false ->
  get_download_link file_path w =
  let req := link_request (access_token (self w)) file_path in
  let w' := sent req (with_ticks (S (ticks w)) w) in
  match server w (log w) req with
  | Reply r =>
    if status_code r =? 200 then
      match json r with
      | Some p => (Ok (dict_get p "dlink" (PStr EmptyString)), w')
      | None => (Raise JSONDecodeError, w')
      end
    else (Ok (PStr EmptyString), w')
  | Fault => (Raise RequestException, w')
  end.
Proof.
  intros Hat Hdue. unfold link_request, sent, touch_session.
  unfold get_download_link, token_param. unfold bind at 1.
  rewrite (check_token_quiet w Hat Hdue). run_M.
  destruct (_session (self w)); run_M;
    destruct (server w (log w) _) as [[st [p|] ic]|]; run_M;
    cbn [status_code json]; try (destruct (st =? 200)); reflexivity.
Qed.

(** X18 ([get_download_link]).  With a token set and no refresh due, the
    link is asked for in one request.  A status other than 200 gives the
    empty string without the body being parsed; with status 200 the value of
    [dlink] is returned, or the empty string when the key is missing; a body
    that is not JSON and a transport failure are raised to the caller. *)
Theorem download_link_result file_path w :
  truthy (access_token (self w)) = true ->
  refresh_due w = false ->
  let req := link_request (access_token (self w)) file_path in
  log (snd (get_download_link file_path w)) = log w ++ [req]
  /\ (forall r, server w (log w) req = Reply r -> status_code r <> 200 ->
        fst (get_download_link file_path w) = Ok (PStr EmptyString))
  /\ (forall r p, server w (log w) req = Reply r -> status_code r = 200 ->
        json r = Some p ->
        fst (get_download_link file_path w)
        = Ok (dict_get p "dlink" (PStr EmptyString)))
  /\ (forall r, server w (log w) req = Reply r -> status_code r = 200 ->
        json r = None ->
        fst (get_download_link file_path w) = Raise JSONDecodeError)
  /\ (server w (log w) req = Fault ->
        fst (get_download_link file_path w) = Raise RequestException).
Proof.
  intros Hat Hdue req. subst req.
  rewrite !(get_download_link_run file_path w Hat Hdue). cbv zeta.
  destruct (server w (log w) _) as [[st [p|] ic]|];
    cbn [status_code json];
    try (destruct (Z.eqb_spec st 200)); cbn [fst snd];
    rewrite ?sent_log; cbn [log with_ticks];
    (split; [reflexivity|]); repeat split; intros; simplify_eq/=;
    congruence.
Qed.

Lemma download_link_result_witness :
  let w := MkWorld demo_client (fun _ => 2000) 0
             (fun _ _ => Reply (Response 404 None (fun _ => []))) [] ∅
             (fun _ => false) (fun _ => true) in
  let req := link_request (PStr "tok") "/gone" in
  log (snd (get_download_link "/gone" w)) = log w ++ [req]
  /\ fst (get_download_link "/gone" w) = Ok (PStr EmptyString).
Proof.
  intros w req.
  destruct (download_link_result "/gone" w eq_refl eq_refl)
    as (Hlog & Hstatus & _).
  split; [exact Hlog|].
  apply (Hstatus (Response 404 None (fun _ => []))); [reflexivity|].
  cbn. discriminate.
Defined.

Lemma answer_log req w : log (snd (answer req w)) = log w ++ [req].
Proof.
  destruct (answer req w) as [res w'] eqn:Ha.
  now destruct (answer_frame _ _ _ _ Ha) as (_ & _ & Hlog & _).
Qed.

(** X19 ([create_share]).  With a token set and no refresh due,
    [create_share] sends one request whose form carries the JSON list of the
    paths, the period, and the field [pwd] exactly when a non-empty password
    is given: [None] and the empty string both create a share without
    password. *)
Theorem create_share_password file_paths period password description w :
  truthy (access_token (self w)) = true ->
  refresh_due w = false ->
  exists req,
    log (snd (create_share file_paths period password description w))
      = log w ++ [req]
    /\ url req = "https://pan.baidu.com/rest/2.0/xpan/share?method=set"
    /\ assoc "path_list" (data req) = Some (JsonDumps (str_list file_paths))
    /\ assoc "period" (data req) = Some (Val (PInt period))
    /\ assoc "pwd" (data req)
       = if truthy password then Some (Val password) else None.
Proof.
  intros Hat Hdue.
  unfold create_share. unfold bind at 1.
  rewrite (check_token_quiet w Hat Hdue).
  fold_send_json (with_ticks (S (ticks w)) w).
  eexists. split; [rewrite answer_log; reflexivity|].
  cbn [url data]. destruct (truthy password); repeat split.
Qed.

Lemma create_share_password_witness :
  let w := demo_world demo_client session_opened ∅ in
  exists req,
    log (snd (create_share ["/a"] 7 (PStr EmptyString) EmptyString w))
      = log w ++ [req]
    /\ url req = "https://pan.baidu.com/rest/2.0/xpan/share?method=set"
    /\ assoc "path_list" (data req) = Some (JsonDumps (str_list ["/a"]))
    /\ assoc "period" (data req) = Some (Val (PInt 7))
    /\ assoc "pwd" (data req) = None.
Proof.
  intros w.
  exact (create_share_password ["/a"] 7 (PStr EmptyString) EmptyString w
           eq_refl eq_refl).
Defined.

(** ** What a pass-through operation leaves alone *)

Lemma answer_keeps req w :
  let w' := snd (answer req w) in
  access_token (self w') = access_token (self w)
  /\ refresh_token (self w') = refresh_token (self w)
  /\ token_expire_time (self w') = token_expire_time (self w)
  /\ files w' = files w.
Proof.
  unfold answer, sent, touch_session.
  destruct (server w (log w) req) as [[st [p|] ic]|]; cbn [json snd];
    destruct (_session (self w)); repeat split.
Qed.

(** X20 ([get_user_info] ... [cancel_share]).  A pass-through operation
    called with a token set and no refresh due changes nothing the client
    keeps: the access token, the refresh token and the expiry are what they
    were, whatever the vendor answers, and no local file is touched. *)
Theorem passthrough_keeps_tokens `{Hashlib} c w :
  is_passthrough c = true ->
  truthy (access_token (self w)) = true ->
  refresh_due w = false ->
  let w' := snd (exec c w) in
  access_token (self w') = access_token (self w)
  /\ refresh_token (self w') = refresh_token (self w)
  /\ token_expire_time (self w') = token_expire_time (self w)
  /\ files w' = files w.
Proof.
  intros Hp Hat Hdue.
  destruct (passthrough_quiet c w Hp Hat Hdue) as (req & _ & ->).
  pose proof (answer_keeps req (with_ticks (S (ticks w)) w)) as Hk.
  cbv zeta in *. cbn [self files with_ticks] in Hk.
  destruct (answer req _) as [[p|e] w2]; exact Hk.
Qed.

Lemma passthrough_keeps_tokens_witness :
  let w := demo_world (set_token_expire_time 5000 demo_client)
             {[ "access_token" := PStr "planted"; "errno" := PInt 0 ]}
             {[ "a.txt" := hundred_bytes ]} in
  let w' := snd (@exec md5_hashlib (RenameFile "/a" "b") w) in
  access_token (self w') = PStr "tok"
  /\ refresh_token (self w') = PStr "ref"
  /\ token_expire_time (self w') = 5000
  /\ files w' = files w.
Proof.
  intros w.
  apply (@passthrough_keeps_tokens md5_hashlib (RenameFile "/a" "b") w);
    reflexivity.
Defined.
